(** * county-mask-generator: grid generation, county assignment, weight mask

    A shallow embedding of [county_mask_generator/mask_generator.py] and
    [county_mask_generator/utils.py].

    Modelling conventions.
    - Python floats (coordinates, weights) are exact rationals [Q]; float
      [==] is [Qeq_bool].  Rounding is therefore outside the model, and NaN
      appears only as the missing value of an attribute column ([None]).
    - A pandas DataFrame is a list of rows in index order together with the
      names of its attribute columns; [df['c']] raises [KeyError] when [c] is
      not a column.
    - A numpy 2-D array is a list of rows, written by index with a bounds
      check ([IndexError] out of range).
    - A Python dict is a [gmap].
    - An instance attribute that is only created by a method is an [option]
      field: reading it while it is [None] raises [AttributeError].
    - Exceptions are the left side of a sum.
    - What the code prints is not modelled.
    - Region identifiers are integers: what numpy does when a value of
      another type is stored into the float array of regions is not
      modelled.
    - The shapefile is taken to carry a coordinate reference system, so that
      [to_crs] does not raise. *)

From Stdlib Require Import ZArith QArith Qabs Lia.
From stdpp Require Import base option list gmap strings.

Local Open Scope Q_scope.
Local Open Scope string_scope.
Local Open Scope list_scope.

(** ** Exceptions *)

Inductive exn : Type :=
| ValueError (msg : string)
| KeyError (key : string)
| AttributeError (attr : string)
| IndexError
| ZeroDivisionError
| ReadError (path : string).

Definition result (A : Type) : Type := (exn + A)%type.

Definition ok {A} (a : A) : result A := inr a.
Definition raise {A} (e : exn) : result A := inl e.

#[global] Instance result_bind : MBind result := λ A B k m,
  match m with
  | inl e => inl e
  | inr a => k a
  end.

(** ** Tables *)

(** One row of a table of grid points: the two coordinate columns and the
    attribute columns contributed by the spatial join ([None] is NaN). *)
Record Row : Type := mkRow {
  row_lon : Q;
  row_lat : Q;
  row_attrs : string → option Z;
}.

Record DataFrame : Type := mkDataFrame {
  df_columns : list string;
  df_rows : list Row;
}.

(** A county of the shapefile: its attribute values and its geometry, the
    latter reduced to what the pipeline asks of it (is the point at
    [lon], [lat] within the polygon). *)
Record County : Type := mkCounty {
  county_attrs : string → option Z;
  county_contains : Q → Q → bool;
}.

(** [total_bounds] is [(min_lon, min_lat, max_lon, max_lat)]. *)
Record GeoDataFrame : Type := mkGeoDataFrame {
  gdf_columns : list string;
  gdf_rows : list County;
  total_bounds : Q * Q * Q * Q;
}.

(** The file system as seen by [gpd.read_file]: [None] when reading the
    path raises. *)
Definition filesystem : Type := string → option GeoDataFrame.

(** ** utils.py *)

Fixpoint check_columns (cols : list string) (required_columns : list string) : bool :=
  match required_columns with
  | [] => true
  | column :: rest =>
      if bool_decide (column ∈ cols) then check_columns cols rest else false
  end.

Definition validate_shapefile (fs : filesystem) (shapefile_path : string)
    (required_columns : list string) : bool :=
  match fs shapefile_path with
  | Some counties => check_columns (gdf_columns counties) required_columns
  | None => false
  end.

(** ** numpy *)

(** [np.linspace(start, stop, num)] with the default [endpoint=True].  The
    message of the error is given without the number of samples. *)
Definition linspace (start stop : Q) (num : Z) : result (list Q) :=
  if (num <? 0)%Z then
    raise (ValueError "Number of samples must be non-negative.")
  else
    let n := Z.to_nat num in
    let div := (num - 1)%Z in
    let delta := stop - start in
    let step := delta / inject_Z div in
    let y := map (λ i : nat, inject_Z (Z.of_nat i) * (if (0 <? div)%Z then step else delta) + start)
                 (seq 0 n) in
    ok (if (1 <? num)%Z then <[pred n := stop]> y else y).

(** [np.meshgrid(lon, lat)] returns [(lon_grid, lat_grid)], both of shape
    [(len lat, len lon)]. *)
Definition meshgrid (lon lat : list Q) : list (list Q) * list (list Q) :=
  (map (λ _, lon) lat, map (λ la, map (λ _, la) lon) lat).

Definition ravel {A} (a : list (list A)) : list A := concat a.

(** [Series.unique()]: the distinct values in order of first appearance. *)
Fixpoint unique (l : list Q) : list Q :=
  match l with
  | [] => []
  | x :: rest => x :: filter (λ y, negb (Qeq_bool x y)) (unique rest)
  end.

(** [np.where(a == x)[0][0]]: the first index holding [x]. *)
Fixpoint first_index (a : list Q) (x : Q) : result nat :=
  match a with
  | [] => raise IndexError
  | y :: rest =>
      if Qeq_bool y x then ok 0%nat
      else i ← first_index rest x; ok (S i)
  end.

Fixpoint insert_sorted (x : Q) (l : list Q) : list Q :=
  match l with
  | [] => [x]
  | y :: rest => if Qle_bool x y then x :: y :: rest else y :: insert_sorted x rest
  end.

(** [np.sort] *)
Definition sort (l : list Q) : list Q := foldr insert_sorted [] l.

Definition zeros (rows cols : nat) : list (list Q) := replicate rows (replicate cols 0).

Definition full {A} (rows cols : nat) (v : A) : list (list A) :=
  replicate rows (replicate cols v).

(** [a[i, j] = v] *)
Definition set2 {A} (a : list (list A)) (i j : nat) (v : A) : result (list (list A)) :=
  match a !! i with
  | Some r =>
      if bool_decide (j < length r)%nat then ok (<[i := <[j := v]> r]> a)
      else raise IndexError
  | None => raise IndexError
  end.

Definition get2 {A} (a : list (list A)) (i j : nat) : option A :=
  r ← a !! i; r !! j.

(** ** pandas *)

(** [df[name]] for an attribute column. *)
Definition column (df : DataFrame) (name : string) : result (list (option Z)) :=
  if bool_decide (name ∈ df_columns df) then ok (map (λ r, row_attrs r name) (df_rows df))
  else raise (KeyError name).

(** [Series.value_counts().to_dict()]: missing values are not counted. *)
Definition value_counts (col : list (option Z)) : gmap Z nat :=
  foldl (λ m v, match v with
                | Some k => <[k := S (default 0%nat (m !! k))]> m
                | None => m
                end) ∅ col.

(** [pd.DataFrame({'lon': lon, 'lat': lat})]: the two coordinate columns
    and no attribute column. *)
Definition DataFrame_lon_lat (lon lat : list Q) : DataFrame :=
  {| df_columns := [];
     df_rows := zip_with (λ lo la, mkRow lo la (λ _, None)) lon lat |}.

(** ** geopandas *)

Definition read_file (fs : filesystem) (path : string) : result GeoDataFrame :=
  match fs path with
  | Some gdf => ok gdf
  | None => raise (ReadError path)
  end.

(** [GeoDataFrame.to_crs("EPSG:4326")]: geometries are already queried in
    longitude and latitude, so nothing changes. *)
Definition to_crs (gdf : GeoDataFrame) : GeoDataFrame := gdf.

(** [gpd.sjoin(left, right, how="left", predicate="within")]: every left row
    is kept, in order; it is repeated for every county containing it, and
    carries missing values when no county does.  The bookkeeping column
    [index_right] is left out, and the shapefile is taken to have no
    attribute called [lon] or [lat]. *)
Definition sjoin (left : DataFrame) (right : GeoDataFrame) : DataFrame :=
  {| df_columns := df_columns left ++ gdf_columns right;
     df_rows :=
       flat_map (λ p,
         let joined c := mkRow (row_lon p) (row_lat p)
                           (λ name, if bool_decide (name ∈ df_columns left)
                                    then row_attrs p name else county_attrs c name) in
         match filter (λ c, county_contains c (row_lon p) (row_lat p)) (gdf_rows right) with
         | [] => [mkRow (row_lon p) (row_lat p)
                    (λ name, if bool_decide (name ∈ df_columns left)
                             then row_attrs p name else None)]
         | matches => map joined matches
         end) (df_rows left) |}.

(** ** xarray *)

Record Dataset : Type := mkDataset {
  ds_FIPS : list (list (option Z));
  ds_weights : list (list Q);
  ds_lat : list Q;
  ds_lon : list Q;
}.

(** ** mask_generator.py *)

Record CountyMaskGenerator : Type := mkCountyMaskGenerator {
  county_identifier : string;
  counties : GeoDataFrame;
  grid_points : option DataFrame;
  grid_with_counties : option DataFrame;
}.

Definition load_county_shapefile (fs : filesystem) (shapefile_path : string)
  : result GeoDataFrame := read_file fs shapefile_path.

(** [CountyMaskGenerator.__init__] *)
Definition __init__ (fs : filesystem) (shapefile_path county_identifier : string)
  : result CountyMaskGenerator :=
  let required_columns := [county_identifier] in
  if negb (validate_shapefile fs shapefile_path required_columns) then
    raise (ValueError "Shapefile validation failed.")
  else
    counties ← load_county_shapefile fs shapefile_path;
    ok {| county_identifier := county_identifier;
          counties := counties;
          grid_points := None;
          grid_with_counties := None |}.

Definition generate_grid_points (self : CountyMaskGenerator)
    (lat_range lon_range : option (Q * Q)) (lat_steps lon_steps : option Z)
  : result (CountyMaskGenerator * DataFrame) :=
  let '(lat_range, lon_range) :=
    match lat_range, lon_range with
    | Some la, Some lo => (la, lo)
    | _, _ =>
        let '(min_lon, min_lat, max_lon, max_lat) := total_bounds (counties self) in
        (default (min_lat, max_lat) lat_range, default (min_lon, max_lon) lon_range)
    end in
  let lat_steps := default 100%Z lat_steps in
  let lon_steps := default 100%Z lon_steps in
  lat ← linspace lat_range.1 lat_range.2 lat_steps;
  lon ← linspace lon_range.1 lon_range.2 lon_steps;
  let '(lon_grid, lat_grid) := meshgrid lon lat in
  let points := DataFrame_lon_lat (ravel lon_grid) (ravel lat_grid) in
  ok ({| county_identifier := county_identifier self;
         counties := counties self;
         grid_points := Some points;
         grid_with_counties := grid_with_counties self |}, points).

Definition assign_grid_to_county (self : CountyMaskGenerator)
  : result (CountyMaskGenerator * DataFrame) :=
  let counties_projected := to_crs (counties self) in
  match grid_points self with
  | None => raise (AttributeError "grid_points")
  | Some points =>
      let joined := sjoin points counties_projected in
      ok ({| county_identifier := county_identifier self;
             counties := counties self;
             grid_points := grid_points self;
             grid_with_counties := Some joined |}, joined)
  end.

(** The two arrays the loop of [create_weight_mask] fills:
    [(weight_mask, fips_array)]. *)
Definition arrays : Type := (list (list Q) * list (list (option Z)))%type.

(** One iteration of the loop over [grid_with_counties.iterrows()], for a
    given dict [fips_counts]. *)
Definition assign_row (fips_counts : gmap Z nat) (grid_with_counties : DataFrame)
    (st : arrays) (row : Row) : result arrays :=
  let '(weight_mask, fips_array) := st in
  match row_attrs row "FIPS" with
  | None => ok (weight_mask, fips_array)
  | Some fips =>
      lat_idx ← first_index (unique (map row_lat (df_rows grid_with_counties))) (row_lat row);
      lon_idx ← first_index (unique (map row_lon (df_rows grid_with_counties))) (row_lon row);
      weight ← match fips_counts !! fips with
               | Some count =>
                   if bool_decide (count = 0%nat) then raise ZeroDivisionError
                   else ok (1 / inject_Z (Z.of_nat count))
               | None => ok 0
               end;
      weight_mask ← set2 weight_mask lat_idx lon_idx weight;
      fips_array ← set2 fips_array lat_idx lon_idx (Some fips);
      ok (weight_mask, fips_array)
  end.

Fixpoint iterrows {S} (body : S → Row → result S) (st : S) (rows : list Row) : result S :=
  match rows with
  | [] => ok st
  | row :: rest => st' ← body st row; iterrows body st' rest
  end.

(** The body of [create_weight_mask] once [self.grid_with_counties] is read. *)
Definition weight_mask_of (grid_with_counties : DataFrame) : result Dataset :=
  fips_column ← column grid_with_counties "FIPS";
  let fips_counts := value_counts fips_column in
  let lat_len := length (unique (map row_lat (df_rows grid_with_counties))) in
  let lon_len := length (unique (map row_lon (df_rows grid_with_counties))) in
  let weight_mask := zeros lat_len lon_len in
  let fips_array := full lat_len lon_len (@None Z) in
  st ← iterrows (assign_row fips_counts grid_with_counties)
         (weight_mask, fips_array) (df_rows grid_with_counties);
  ok {| ds_FIPS := st.2;
        ds_weights := st.1;
        ds_lat := sort (unique (map row_lat (df_rows grid_with_counties)));
        ds_lon := sort (unique (map row_lon (df_rows grid_with_counties))) |}.

Definition create_weight_mask (self : CountyMaskGenerator) : result Dataset :=
  match grid_with_counties self with
  | None => raise (AttributeError "grid_with_counties")
  | Some grid_with_counties => weight_mask_of grid_with_counties
  end.

(** * Vocabulary of the statements *)

(** A list of coordinates without two equal values. *)
Fixpoint Qdistinct (l : list Q) : Prop :=
  match l with
  | [] => True
  | x :: rest => (∀ y, y ∈ rest → ¬ x == y) ∧ Qdistinct rest
  end.

(** A two-dimensional array of [rows] rows of [cols] entries each. *)
Definition has_shape {A} (a : list (list A)) (rows cols : nat) : Prop :=
  length a = rows ∧ ∀ i r, a !! i = Some r → length r = cols.

(** Number of rows of the table that reference region [f]. *)
Definition count_of (col : list (option Z)) (f : Z) : nat :=
  length (filter (λ v, v = Some f) col).

(** The axes the loop indexes by: the distinct latitudes and longitudes of
    the table in order of first appearance. *)
Definition lat_axis (df : DataFrame) : list Q := unique (map row_lat (df_rows df)).
Definition lon_axis (df : DataFrame) : list Q := unique (map row_lon (df_rows df)).

Definition fips_of (df : DataFrame) : list (option Z) :=
  map (λ r, row_attrs r "FIPS") (df_rows df).

(** The row lies at the grid point of latitude [la] and longitude [lo]. *)
Definition at_point (la lo : Q) (r : Row) : bool :=
  Qeq_bool (row_lat r) la && Qeq_bool (row_lon r) lo.

(** The region of the last row of the table that lies at the point and is
    assigned to a region; [None] when the point has no such row. *)
Fixpoint last_assignment (rows : list Row) (la lo : Q) : option Z :=
  match rows with
  | [] => None
  | r :: rest =>
      match last_assignment rest la lo with
      | Some f => Some f
      | None => if at_point la lo r then row_attrs r "FIPS" else None
      end
  end.

(** The weight the loop computes for region [f] from the dict. *)
Definition weight_for (fips_counts : gmap Z nat) (f : Z) : Q :=
  match fips_counts !! f with
  | Some count => 1 / inject_Z (Z.of_nat count)
  | None => 0
  end.

Definition Qsum (l : list Q) : Q := foldr Qplus 0 l.

(** The sum of [g i j] over all cells of a [rows] by [cols] grid. *)
Definition sum_over_cells (rows cols : nat) (g : nat → nat → Q) : Q :=
  Qsum (map (λ i, Qsum (map (g i) (seq 0 cols))) (seq 0 rows)).

(** The sum of the weight layer over the cells whose region is [R]. *)
Definition region_sum (R : Z) (ds : Dataset) : Q :=
  sum_over_cells (length (ds_lat ds)) (length (ds_lon ds))
    (λ i j, if bool_decide (get2 (ds_FIPS ds) i j = Some (Some R))
            then default 0 (get2 (ds_weights ds) i j) else 0).

(** Region [R] is present in the region layer. *)
Definition region_present (R : Z) (ds : Dataset) : Prop :=
  ∃ i j, get2 (ds_FIPS ds) i j = Some (Some R).

(** Row [r'] is assigned to a region and lies at the grid point of [r]. *)
Definition assigned_at (r r' : Row) : bool :=
  bool_decide (is_Some (row_attrs r' "FIPS")) && at_point (row_lat r) (row_lon r) r'.

(** No two rows that are assigned to a region lie at the same grid point. *)
Fixpoint distinct_assigned_points (rows : list Row) : bool :=
  match rows with
  | [] => true
  | r :: rest =>
      (if bool_decide (is_Some (row_attrs r "FIPS"))
       then forallb (λ r', negb (assigned_at r r')) rest else true)
      && distinct_assigned_points rest
  end.

(** The region the rows [rs] finally assign to cell [(i, j)] of the axes of
    table [df]. *)
Definition cell_assignment (df : DataFrame) (rs : list Row) (i j : nat) : option Z :=
  match lat_axis df !! i, lon_axis df !! j with
  | Some la, Some lo => last_assignment rs la lo
  | _, _ => None
  end.

(** The three stages called in order on one instance. *)
Definition run_pipeline (self : CountyMaskGenerator)
    (lat_range lon_range : option (Q * Q)) (lat_steps lon_steps : option Z)
  : result Dataset :=
  generated ← generate_grid_points self lat_range lon_range lat_steps lon_steps;
  assigned ← assign_grid_to_county generated.1;
  create_weight_mask assigned.1.

(** The ranges and step counts [generate_grid_points] works with once the
    defaults are filled in. *)
Definition lat_range_of (self : CountyMaskGenerator) (lat_range : option (Q * Q)) : Q * Q :=
  default (let '(min_lon, min_lat, max_lon, max_lat) := total_bounds (counties self) in
           (min_lat, max_lat)) lat_range.

Definition lon_range_of (self : CountyMaskGenerator) (lon_range : option (Q * Q)) : Q * Q :=
  default (let '(min_lon, min_lat, max_lon, max_lat) := total_bounds (counties self) in
           (min_lon, max_lon)) lon_range.

Definition steps_of (steps : option Z) : Z := default 100%Z steps.

(** Row-major order: for each latitude in turn, one point per longitude. *)
Definition row_major (lat lon : list Q) : list Row :=
  concat (map (λ la, map (λ lo, mkRow lo la (λ _, None)) lon) lat).

(** The [(lat, lon)] pairs of a table, in row order. *)
Definition coordinates (df : DataFrame) : list (Q * Q) :=
  map (λ r, (row_lat r, row_lon r)) (df_rows df).

(** Consecutive values differ by one and the same non-negative step. *)
Definition evenly_spaced_ascending (l : list Q) : Prop :=
  ∃ step, 0 <= step ∧
    ∀ i x y, l !! i = Some x → l !! S i = Some y → y - x == step.

(** An axis of evenly spaced ascending values that starts at [lo] and, when
    it has at least two values, ends at [hi]. *)
Definition axis_from_to (lo hi : Q) (l : list Q) : Prop :=
  evenly_spaced_ascending l ∧
  (∃ x, l !! 0%nat = Some x ∧ x == lo) ∧
  ((2 ≤ length l)%nat → last l = Some hi).

(** The [(lat, lon)] pairs of the grid a call generates. *)
Definition generated_coordinates (self : CountyMaskGenerator)
    (lat_range lon_range : option (Q * Q)) (lat_steps lon_steps : option Z)
  : result (list (Q * Q)) :=
  generated ← generate_grid_points self lat_range lon_range lat_steps lon_steps;
  ok (coordinates generated.2).

(** The values of the identifier column [name] of a shapefile. *)
Definition identifiers (name : string) (gdf : GeoDataFrame) : list (option Z) :=
  map (λ c, county_attrs c name) (gdf_rows gdf).

(** Method calls on an instance, and the instance they leave behind.  A call
    that raises leaves the instance as it was. *)
Inductive call : Type :=
| GenerateGridPoints (lat_range lon_range : option (Q * Q)) (lat_steps lon_steps : option Z)
| AssignGridToCounty
| CreateWeightMask.

Definition perform (self : CountyMaskGenerator) (c : call) : CountyMaskGenerator :=
  match c with
  | GenerateGridPoints lat_range lon_range lat_steps lon_steps =>
      match generate_grid_points self lat_range lon_range lat_steps lon_steps with
      | inr (self', _) => self'
      | inl _ => self
      end
  | AssignGridToCounty =>
      match assign_grid_to_county self with
      | inr (self', _) => self'
      | inl _ => self
      end
  | CreateWeightMask => self
  end.

Definition perform_all (self : CountyMaskGenerator) (calls : list call) : CountyMaskGenerator :=
  foldl perform self calls.

Definition succeeds {A} (r : result A) : Prop := ∃ a, r = inr a.

(** The rows of the assignment table a run of the first two stages yields,
    as [(lat, lon, FIPS)]. *)
Definition assigned_rows (self : CountyMaskGenerator)
    (lat_range lon_range : option (Q * Q)) (lat_steps lon_steps : option Z)
  : result (list (Q * Q * option Z)) :=
  generated ← generate_grid_points self lat_range lon_range lat_steps lon_steps;
  assigned ← assign_grid_to_county generated.1;
  ok (map (λ r, (row_lat r, row_lon r, row_attrs r "FIPS")) (df_rows assigned.2)).

(** No region of the rows [rs] has the count zero in the dict. *)
Definition no_zero_count (fips_counts : gmap Z nat) (rs : list Row) : Prop :=
  ∀ r k, r ∈ rs → row_attrs r "FIPS" = Some k → fips_counts !! k ≠ Some 0%nat.

(** Each value is smaller than the next one. *)
Fixpoint strictly_ascending (l : list Q) : Prop :=
  match l with
  | [] => True
  | x :: rest =>
      match rest with
      | [] => True
      | y :: _ => x < y
      end ∧ strictly_ascending rest
  end.

(** The counties of the shapefile the point lies within, in file order. *)
Definition containing (gdf : GeoDataFrame) (lon lat : Q) : list County :=
  filter (λ c, county_contains c lon lat) (gdf_rows gdf).

(** The rows the spatial join makes of one grid point. *)
Definition joined_rows (left : DataFrame) (right : GeoDataFrame) (p : Row) : list Row :=
  match containing right (row_lon p) (row_lat p) with
  | [] => [mkRow (row_lon p) (row_lat p)
             (λ name, if bool_decide (name ∈ df_columns left)
                      then row_attrs p name else None)]
  | matches =>
      map (λ c, mkRow (row_lon p) (row_lat p)
                  (λ name, if bool_decide (name ∈ df_columns left)
                           then row_attrs p name else county_attrs c name)) matches
  end.

(** The values of [u] that equal no value of [l]. *)
Fixpoint without (l u : list Q) : list Q :=
  match l with
  | [] => u
  | x :: rest => filter (λ y, negb (Qeq_bool x y)) (without rest u)
  end.

(** No two of the [(lat, lon)] pairs are the same point. *)
Fixpoint coords_distinct (cs : list (Q * Q)) : Prop :=
  match cs with
  | [] => True
  | c :: rest =>
      (∀ c', c' ∈ rest → ¬ (c.1 == c'.1 ∧ c.2 == c'.2)) ∧ coords_distinct rest
  end.

(** The [FIPS] value the spatial join gives a point that lies within at
    most one county. *)
Definition region_at (gdf : GeoDataFrame) (lon lat : Q) : option Z :=
  match containing gdf lon lat with
  | [] => None
  | c :: _ => county_attrs c "FIPS"
  end.

(** No point of the grid of the two axes lies within two counties. *)
Definition single_county (gdf : GeoDataFrame) (lat lon : list Q) : Prop :=
  ∀ la lo, la ∈ lat → lo ∈ lon → (length (containing gdf lo la) ≤ 1)%nat.

(** The number of points of the grid of the two axes that the spatial join
    assigns to region [f]. *)
Definition points_in_region (gdf : GeoDataFrame) (lat lon : list Q) (f : Z) : nat :=
  count_of (map (λ p, region_at gdf (row_lon p) (row_lat p)) (row_major lat lon)) f.


(** * Sample inputs *)

(** Attribute values of a county that has the single attribute [name]. *)
Definition only (name : string) (v : Z) : string → option Z :=
  λ c, if bool_decide (c = name) then Some v else None.

(** The geometry of a rectangle: a point is within it when it lies in its
    interior. *)
Definition within_box (lon0 lon1 lat0 lat1 : Q) : Q → Q → bool :=
  λ lon lat, negb (Qle_bool lon lon0) && negb (Qle_bool lon1 lon)
             && negb (Qle_bool lat lat0) && negb (Qle_bool lat1 lat).

(** Two adjacent squares, regions 1 and 2, keyed by [FIPS]: longitudes -1
    to 1 and 1 to 3, latitudes -1 to 1. *)
Definition two_squares : GeoDataFrame :=
  {| gdf_columns := ["FIPS"];
     gdf_rows := [mkCounty (only "FIPS" 1) (within_box (-1) 1 (-1) 1);
                  mkCounty (only "FIPS" 2) (within_box 1 3 (-1) 1)];
     total_bounds := (-1, -1, 3, 1) |}.

(** Region 2 lies inside region 1: the polygons overlap. *)
Definition overlapping : GeoDataFrame :=
  {| gdf_columns := ["FIPS"];
     gdf_rows := [mkCounty (only "FIPS" 1) (within_box (-1) 2 (-1) 2);
                  mkCounty (only "FIPS" 2) (within_box (-1) 2 (-1) (1 # 2))];
     total_bounds := (-1, -1, 2, 2) |}.

(** The two squares again, keyed by [GEOID] instead of [FIPS]. *)
Definition two_squares_geoid : GeoDataFrame :=
  {| gdf_columns := ["GEOID"];
     gdf_rows := [mkCounty (only "GEOID" 1) (within_box (-1) 1 (-1) 1);
                  mkCounty (only "GEOID" 2) (within_box 1 3 (-1) 1)];
     total_bounds := (-1, -1, 3, 1) |}.

(** Two counties carrying the same identifier. *)
Definition duplicated_ids : GeoDataFrame :=
  {| gdf_columns := ["FIPS"];
     gdf_rows := [mkCounty (only "FIPS" 1) (within_box (-1) 1 (-1) 1);
                  mkCounty (only "FIPS" 1) (within_box 1 3 (-1) 1)];
     total_bounds := (-1, -1, 3, 1) |}.

Definition disk (gdf : GeoDataFrame) : filesystem :=
  λ path, if bool_decide (path = "counties.shp") then Some gdf else None.

Definition fresh (county_identifier : string) (gdf : GeoDataFrame) : CountyMaskGenerator :=
  {| county_identifier := county_identifier;
     counties := gdf;
     grid_points := None;
     grid_with_counties := None |}.

(** An instance that holds the assignment table [df]. *)
Definition holding (gdf : GeoDataFrame) (df : DataFrame) : CountyMaskGenerator :=
  {| county_identifier := "FIPS";
     counties := gdf;
     grid_points := None;
     grid_with_counties := Some df |}.

Definition fips_row (lat lon : Q) (fips : option Z) : Row :=
  mkRow lon lat (λ c, if bool_decide (c = "FIPS") then fips else None).

(** An assignment table on a 2 by 2 grid: two points in region 1, one in
    region 2, one in no region. *)
Definition small_table : DataFrame :=
  {| df_columns := ["FIPS"];
     df_rows := [fips_row 0 0 (Some 1%Z); fips_row 0 2 (Some 2%Z);
                 fips_row 1 0 (Some 1%Z); fips_row 1 2 None] |}.

Definition small_mask : Dataset :=
  {| ds_FIPS := [[Some 1%Z; Some 2%Z]; [Some 1%Z; None]];
     ds_weights := [[1 # 2; 1]; [1 # 2; 0]];
     ds_lat := [0; 1];
     ds_lon := [0; 2] |}.

(** The table the spatial join yields for [overlapping] on a grid of two
    latitudes and one longitude: the first point is within both regions. *)
Definition overlap_table : DataFrame :=
  {| df_columns := ["FIPS"];
     df_rows := [fips_row 0 0 (Some 1%Z); fips_row 0 0 (Some 2%Z);
                 fips_row 1 0 (Some 1%Z)] |}.

Definition overlap_mask : Dataset :=
  {| ds_FIPS := [[Some 2%Z]; [Some 1%Z]];
     ds_weights := [[1]; [1 # 2]];
     ds_lat := [0; 1];
     ds_lon := [0] |}.

(** The two squares carrying both a [FIPS] and a different [GEOID]. *)
Definition two_keys : GeoDataFrame :=
  {| gdf_columns := ["FIPS"; "GEOID"];
     gdf_rows :=
       [mkCounty (λ c, if bool_decide (c = "FIPS") then Some 1%Z
                       else if bool_decide (c = "GEOID") then Some 10%Z else None)
                 (within_box (-1) 1 (-1) 1);
        mkCounty (λ c, if bool_decide (c = "FIPS") then Some 2%Z
                       else if bool_decide (c = "GEOID") then Some 20%Z else None)
                 (within_box 1 3 (-1) 1)];
     total_bounds := (-1, -1, 3, 1) |}.

(** Two rows on the diagonal of a 2 by 2 grid. *)
Definition diagonal_table : DataFrame :=
  {| df_columns := ["FIPS"];
     df_rows := [fips_row 0 0 (Some 1%Z); fips_row 1 1 (Some 1%Z)] |}.

Definition diagonal_mask : Dataset :=
  {| ds_FIPS := [[Some 1%Z; None]; [None; Some 1%Z]];
     ds_weights := [[1 # 2; 0]; [0; 1 # 2]];
     ds_lat := [0; 1];
     ds_lon := [0; 1] |}.

(** The mask of the two squares sampled at latitudes 2 and 0, in this
    order, and longitudes 0 and 2. *)
Definition flipped_mask : Dataset :=
  {| ds_FIPS := [[None; None]; [Some 1%Z; Some 2%Z]];
     ds_weights := [[0; 0]; [1; 1]];
     ds_lat := [0; 2];
     ds_lon := [0; 2] |}.

(** An instance that holds the grid [points]. *)
Definition with_grid (gdf : GeoDataFrame) (points : DataFrame) : CountyMaskGenerator :=
  {| county_identifier := "FIPS";
     counties := gdf;
     grid_points := Some points;
     grid_with_counties := None |}.

(** Two grid points at longitude 0, latitudes 0 and 1. *)
Definition column_grid : DataFrame := DataFrame_lon_lat [0; 0] [0; 1].

(** Two grid points on a diagonal: longitude and latitude 0, then 2. *)
Definition diagonal_grid : DataFrame := DataFrame_lon_lat [0; 2] [0; 2].

(** The mask of the two squares sampled at latitudes 0 and 2 and
    longitudes 0 and 2. *)
Definition ascending_mask : Dataset :=
  {| ds_FIPS := [[Some 1%Z; Some 2%Z]; [None; None]];
     ds_weights := [[1; 1]; [0; 0]];
     ds_lat := [0; 2];
     ds_lon := [0; 2] |}.

(** * Properties *)

(** ** The error monad *)

Lemma bind_ok {A B} (m : result A) (k : A → result B) (b : B) :
  (m ≫= k) = inr b ↔ ∃ a, m = inr a ∧ k a = inr b.
Proof.
  destruct m as [e|a]; simpl.
  - split; [discriminate | intros (a & Ha & _); discriminate].
  - split; [eauto | intros (a' & Ha & Hk); congruence].
Qed.

(** ** Value equality on coordinates *)

Lemma Qeq_bool_sym x y : Qeq_bool x y = Qeq_bool y x.
Proof.
  destruct (Qeq_bool x y) eqn:E, (Qeq_bool y x) eqn:F; try reflexivity.
  - apply Qeq_bool_iff in E. symmetry in E. apply Qeq_bool_iff in E. congruence.
  - apply Qeq_bool_iff in F. symmetry in F. apply Qeq_bool_iff in F. congruence.
Qed.

Lemma Qeq_bool_false x y : Qeq_bool x y = false ↔ ¬ x == y.
Proof.
  split.
  - intros E H. apply Qeq_bool_iff in H. congruence.
  - intros H. destruct (Qeq_bool x y) eqn:E; [|reflexivity].
    apply Qeq_bool_iff in E. contradiction.
Qed.

Lemma Qdistinct_filter (P : Q → Prop) `{∀ x, Decision (P x)} (l : list Q) :
  Qdistinct l → Qdistinct (filter P l).
Proof.
  induction l as [|x l IH]; simpl; [done|].
  intros [Hx Hl]. rewrite filter_cons. destruct (decide (P x)); simpl.
  - split; [|auto]. intros y Hy. apply Hx.
    apply list_elem_of_filter in Hy. tauto.
  - auto.
Qed.

Lemma Qdistinct_lookup (l : list Q) (i j : nat) (x y : Q) :
  Qdistinct l → l !! i = Some x → l !! j = Some y → x == y → i = j.
Proof.
  revert i j. induction l as [|a l IH]; intros i j Hd Hi Hj Hxy; [done|].
  destruct Hd as [Ha Hd].
  destruct i as [|i], j as [|j]; simpl in *; simplify_eq.
  - reflexivity.
  - exfalso. apply (Ha y); [|done]. eapply list_elem_of_lookup_2; eauto.
  - exfalso. apply (Ha x); [|by symmetry]. eapply list_elem_of_lookup_2; eauto.
  - f_equal. eauto.
Qed.

Lemma unique_distinct (l : list Q) : Qdistinct (unique l).
Proof.
  induction l as [|x l IH]; simpl; [done|]. split.
  - intros y Hy. apply list_elem_of_filter in Hy as [Hy _].
    apply Is_true_true in Hy. apply negb_true_iff in Hy.
    by apply Qeq_bool_false.
  - by apply Qdistinct_filter.
Qed.

Lemma unique_elem_of (l : list Q) (x : Q) : x ∈ unique l → x ∈ l.
Proof.
  induction l as [|a l IH]; simpl; [done|].
  intros [->|Hx]%elem_of_cons; [left|right].
  apply list_elem_of_filter in Hx. tauto.
Qed.

Lemma unique_complete (l : list Q) (x : Q) :
  x ∈ l → ∃ y, y ∈ unique l ∧ y == x.
Proof.
  induction l as [|a l IH]; [by intros ?%elem_of_nil|].
  intros [->|Hx]%elem_of_cons; simpl.
  - exists a. split; [left|reflexivity].
  - destruct (IH Hx) as (y & Hy & Hyx).
    destruct (Qeq_bool a y) eqn:E.
    + exists a. split; [left|]. apply Qeq_bool_iff in E. by rewrite E.
    + exists y. split; [|done]. right. apply list_elem_of_filter.
      split; [|done]. by rewrite E.
Qed.

(** ** [first_index] *)

Lemma first_index_ok (a : list Q) (x : Q) (i : nat) :
  first_index a x = inr i → ∃ y, a !! i = Some y ∧ y == x.
Proof.
  revert i. induction a as [|y a IH]; intros i; simpl; [discriminate|].
  destruct (Qeq_bool y x) eqn:E.
  - intros [= <-]. exists y. split; [done|]. by apply Qeq_bool_iff.
  - intros (i' & Hi' & [= <-])%bind_ok. simpl. eauto.
Qed.

Lemma first_index_lt (a : list Q) (x : Q) (i : nat) :
  first_index a x = inr i → (i < length a)%nat.
Proof.
  intros (y & Hy & _)%first_index_ok. by eapply lookup_lt_Some.
Qed.

Lemma first_index_total (a : list Q) (x y : Q) :
  y ∈ a → y == x → ∃ i, first_index a x = inr i.
Proof.
  induction a as [|z a IH]; [by intros ?%elem_of_nil|].
  intros Hy Hyx. simpl. destruct (Qeq_bool z x) eqn:E; [by eexists|].
  apply elem_of_cons in Hy as [->|Hy].
  - apply Qeq_bool_false in E. contradiction.
  - destruct (IH Hy Hyx) as [i ->]. by eexists.
Qed.

Lemma first_index_unique (l : list Q) (x : Q) :
  x ∈ l → ∃ i, first_index (unique l) x = inr i.
Proof.
  intros (y & Hy & Hyx)%unique_complete. by eapply first_index_total.
Qed.

(** In a list of distinct values, the first index of [x] is [i] exactly
    when the value at [i] equals [x]. *)
Lemma first_index_distinct (a : list Q) (x v : Q) (i : nat) :
  Qdistinct a → a !! i = Some v →
  first_index a x = inr i ↔ v == x.
Proof.
  intros Hd Hi. split.
  - intros (y & Hy & Hyx)%first_index_ok. congruence.
  - intros Hvx.
    destruct (first_index_total a x v) as [i' Hi']; [by eapply list_elem_of_lookup_2|done|].
    destruct (first_index_ok _ _ _ Hi') as (y & Hy & Hyx).
    assert (i' = i) as ->; [|done].
    eapply Qdistinct_lookup; eauto. by rewrite Hyx, Hvx.
Qed.

(** ** Two-dimensional arrays *)

Lemma full_shape {A} (rows cols : nat) (v : A) : has_shape (full rows cols v) rows cols.
Proof.
  split; [apply length_replicate|].
  intros i r [-> _]%lookup_replicate. apply length_replicate.
Qed.

Lemma get2_full {A} (rows cols : nat) (v : A) (i j : nat) :
  (i < rows)%nat → (j < cols)%nat → get2 (full rows cols v) i j = Some v.
Proof.
  intros Hi Hj. unfold get2, full.
  rewrite lookup_replicate_2 by done. simpl. by rewrite lookup_replicate_2.
Qed.

Lemma get2_in_shape {A} (a : list (list A)) (rows cols i j : nat) :
  has_shape a rows cols → (i < rows)%nat → (j < cols)%nat → is_Some (get2 a i j).
Proof.
  intros [Hl Hr] Hi Hj. unfold get2.
  destruct (lookup_lt_is_Some_2 a i) as [r Hri]; [lia|].
  rewrite Hri. simpl. apply lookup_lt_is_Some_2. rewrite (Hr _ _ Hri). lia.
Qed.

Lemma set2_in_shape {A} (a : list (list A)) (rows cols i j : nat) (v : A) :
  has_shape a rows cols → (i < rows)%nat → (j < cols)%nat →
  ∃ a', set2 a i j v = inr a' ∧ has_shape a' rows cols ∧
        ∀ i' j', get2 a' i' j' = if decide (i' = i ∧ j' = j) then Some v else get2 a i' j'.
Proof.
  intros [Hl Hr] Hi Hj. unfold set2.
  destruct (lookup_lt_is_Some_2 a i) as [r Hri]; [lia|].
  rewrite Hri. pose proof (Hr _ _ Hri) as Hlen.
  rewrite bool_decide_true by lia.
  eexists. split; [reflexivity|]. split.
  - split; [by rewrite length_insert|].
    intros i' r'. destruct (decide (i' = i)) as [->|Hne].
    + rewrite list_lookup_insert_eq by lia. intros [= <-]. by rewrite length_insert.
    + rewrite list_lookup_insert_ne by done. apply Hr.
  - intros i' j'. unfold get2. destruct (decide (i' = i)) as [->|Hne].
    + rewrite list_lookup_insert_eq by lia. simpl.
      destruct (decide (j' = j)) as [->|Hnej].
      * rewrite list_lookup_insert_eq by lia. by rewrite decide_True.
      * rewrite list_lookup_insert_ne by done. rewrite decide_False by tauto.
        by rewrite Hri.
    + rewrite list_lookup_insert_ne by done. by rewrite decide_False by tauto.
Qed.

(** ** The counts of [value_counts] *)

Lemma value_counts_from (col : list (option Z)) (m : gmap Z nat) (f : Z) :
  default 0%nat (foldl (λ m v, match v with
                          | Some k => <[k := S (default 0%nat (m !! k))]> m
                          | None => m
                          end) m col !! f)
  = (default 0%nat (m !! f) + count_of col f)%nat.
Proof.
  revert m. induction col as [|v col IH]; intros m; simpl.
  - unfold count_of. simpl. lia.
  - rewrite IH. unfold count_of. rewrite filter_cons.
    destruct v as [k|].
    + destruct (decide (k = f)) as [->|Hne].
      * rewrite lookup_insert_eq. rewrite decide_True by done. simpl. lia.
      * rewrite lookup_insert_ne by done.
        rewrite decide_False by congruence. lia.
    + rewrite decide_False by done. lia.
Qed.

Lemma value_counts_nonzero_from (col : list (option Z)) (m : gmap Z nat) :
  (∀ k, m !! k ≠ Some 0%nat) →
  ∀ k, foldl (λ m v, match v with
                     | Some k => <[k := S (default 0%nat (m !! k))]> m
                     | None => m
                     end) m col !! k ≠ Some 0%nat.
Proof.
  revert m. induction col as [|v col IH]; intros m Hm; simpl; [done|].
  apply IH. destruct v as [k'|]; [|done].
  intros k. destruct (decide (k' = k)) as [->|Hne].
  - rewrite lookup_insert_eq. congruence.
  - rewrite lookup_insert_ne by done. apply Hm.
Qed.

Lemma value_counts_nonzero (col : list (option Z)) (k : Z) :
  value_counts col !! k ≠ Some 0%nat.
Proof. apply value_counts_nonzero_from. intros k'. by rewrite lookup_empty. Qed.

(** The dict holds, for every region referenced by some row, the number of
    rows referencing it, and nothing else. *)
Lemma value_counts_lookup (col : list (option Z)) (f : Z) :
  value_counts col !! f =
    if decide (count_of col f = 0%nat) then None else Some (count_of col f).
Proof.
  pose proof (value_counts_from col ∅ f) as H.
  pose proof (value_counts_nonzero col f) as Hnz.
  fold (value_counts col) in H. rewrite lookup_empty in H. simpl in H.
  destruct (value_counts col !! f) as [n|] eqn:E; simpl in H.
  - subst n. rewrite decide_False; [done|]. intros Hz. rewrite Hz in Hnz. done.
  - by rewrite decide_True.
Qed.

Lemma count_of_pos (col : list (option Z)) (f : Z) :
  Some f ∈ col ↔ (0 < count_of col f)%nat.
Proof.
  unfold count_of. split.
  - intros Hin. assert (Some f ∈ filter (λ v, v = Some f) col) as Hf
      by (by apply list_elem_of_filter).
    destruct (filter _ col); [by apply elem_of_nil in Hf | simpl; lia].
  - intros Hlen. destruct (filter (λ v, v = Some f) col) as [|v l] eqn:E; [simpl in Hlen; lia|].
    assert (v ∈ filter (λ v, v = Some f) col) as Hv by (rewrite E; left).
    apply list_elem_of_filter in Hv as [-> Hv]. done.
Qed.

(** ** The loop of [create_weight_mask] *)

Section loop.
Variable fips_counts : gmap Z nat.
Variable grid_with_counties : DataFrame.
Let rows := length (lat_axis grid_with_counties).
Let cols := length (lon_axis grid_with_counties).

Lemma row_lat_index (r : Row) :
  r ∈ df_rows grid_with_counties →
  ∃ i, first_index (lat_axis grid_with_counties) (row_lat r) = inr i ∧ (i < rows)%nat.
Proof.
  intros Hr. destruct (first_index_unique (map row_lat (df_rows grid_with_counties)) (row_lat r))
    as [i Hi]; [by apply list_elem_of_fmap_2|].
  exists i. split; [done|]. by eapply first_index_lt.
Qed.

Lemma row_lon_index (r : Row) :
  r ∈ df_rows grid_with_counties →
  ∃ j, first_index (lon_axis grid_with_counties) (row_lon r) = inr j ∧ (j < cols)%nat.
Proof.
  intros Hr. destruct (first_index_unique (map row_lon (df_rows grid_with_counties)) (row_lon r))
    as [j Hj]; [by apply list_elem_of_fmap_2|].
  exists j. split; [done|]. by eapply first_index_lt.
Qed.

(** One iteration on a row of the table: it never raises, keeps the
    shapes, and changes at most the cell of the row's grid point. *)
Lemma assign_row_spec (st : arrays) (r : Row) :
  r ∈ df_rows grid_with_counties →
  no_zero_count fips_counts [r] →
  has_shape st.1 rows cols → has_shape st.2 rows cols →
  ∃ st', assign_row fips_counts grid_with_counties st r = inr st' ∧
    has_shape st'.1 rows cols ∧ has_shape st'.2 rows cols ∧
    ∀ i j la lo,
      lat_axis grid_with_counties !! i = Some la →
      lon_axis grid_with_counties !! j = Some lo →
      match (if at_point la lo r then row_attrs r "FIPS" else None) with
      | Some f => get2 st'.1 i j = Some (weight_for fips_counts f) ∧
                  get2 st'.2 i j = Some (Some f)
      | None => get2 st'.1 i j = get2 st.1 i j ∧ get2 st'.2 i j = get2 st.2 i j
      end.
Proof.
  intros Hr Hnz Hw Hf. destruct st as [wm fa]. simpl in Hw, Hf.
  unfold assign_row. destruct (row_attrs r "FIPS") as [f|] eqn:Ef.
  2:{ exists (wm, fa). split; [done|]. split; [done|]. split; [done|].
      intros i j la lo _ _. by destruct (at_point la lo r). }
  destruct (row_lat_index r Hr) as (i0 & Hi0 & Hi0lt).
  destruct (row_lon_index r Hr) as (j0 & Hj0 & Hj0lt).
  fold (lat_axis grid_with_counties). fold (lon_axis grid_with_counties).
  rewrite Hi0, Hj0. simpl.
  assert (match fips_counts !! f with
          | Some count => if bool_decide (count = 0%nat) then raise ZeroDivisionError
                          else ok (1 / inject_Z (Z.of_nat count))
          | None => ok 0
          end = inr (weight_for fips_counts f)) as ->.
  { unfold weight_for. destruct (fips_counts !! f) as [n|] eqn:En; [|done].
    rewrite bool_decide_false; [done|]. intros ->.
    by apply (Hnz r f (list_elem_of_here _ _)). }
  simpl.
  destruct (set2_in_shape wm rows cols i0 j0 (weight_for fips_counts f) Hw Hi0lt Hj0lt)
    as (wm' & -> & Hw' & Hgw).
  destruct (set2_in_shape fa rows cols i0 j0 (Some f) Hf Hi0lt Hj0lt)
    as (fa' & -> & Hf' & Hgf).
  simpl. exists (wm', fa'). split; [done|]. split; [done|]. split; [done|].
  intros i j la lo Hla Hlo. simpl. rewrite Hgw, Hgf.
  assert ((i = i0 ∧ j = j0) ↔ at_point la lo r = true) as Hiff.
  { unfold at_point. rewrite andb_true_iff, !Qeq_bool_iff.
    pose proof (first_index_distinct _ (row_lat r) la i (unique_distinct _) Hla) as H1.
    pose proof (first_index_distinct _ (row_lon r) lo j (unique_distinct _) Hlo) as H2.
    fold (lat_axis grid_with_counties) in H1. fold (lon_axis grid_with_counties) in H2.
    split.
    - intros [-> ->]. split; symmetry; [by apply H1 | by apply H2].
    - intros [Ha Hb]. symmetry in Ha, Hb. apply H1 in Ha. apply H2 in Hb.
      split; congruence. }
  destruct (at_point la lo r) eqn:Eat.
  - rewrite !decide_True by (by apply Hiff). done.
  - rewrite !decide_False; [done| |]; intros H%Hiff; done.
Qed.

(** The loop over any part of the table. *)
Lemma iterrows_spec (rs : list Row) (st : arrays) :
  (∀ r, r ∈ rs → r ∈ df_rows grid_with_counties) →
  no_zero_count fips_counts rs →
  has_shape st.1 rows cols → has_shape st.2 rows cols →
  ∃ st', iterrows (assign_row fips_counts grid_with_counties) st rs = inr st' ∧
    has_shape st'.1 rows cols ∧ has_shape st'.2 rows cols ∧
    ∀ i j la lo,
      lat_axis grid_with_counties !! i = Some la →
      lon_axis grid_with_counties !! j = Some lo →
      match last_assignment rs la lo with
      | Some f => get2 st'.1 i j = Some (weight_for fips_counts f) ∧
                  get2 st'.2 i j = Some (Some f)
      | None => get2 st'.1 i j = get2 st.1 i j ∧ get2 st'.2 i j = get2 st.2 i j
      end.
Proof.
  revert st. induction rs as [|r rs IH]; intros st Hin Hnz Hw Hf.
  - exists st. simpl. split; [done|]. split; [done|]. split; [done|]. done.
  - destruct (assign_row_spec st r) as (st1 & Hst1 & Hw1 & Hf1 & Hcell1);
      [apply Hin; left| |done|done|].
    { intros r' k ->%list_elem_of_singleton. apply Hnz. left. }
    destruct (IH st1) as (st' & Hst' & Hw' & Hf' & Hcell');
      [intros; apply Hin; by right| |done|done|].
    { intros r' k Hr'. apply Hnz. by right. }
    exists st'. simpl. rewrite Hst1. simpl.
    split; [done|]. split; [done|]. split; [done|].
    intros i j la lo Hla Hlo.
    specialize (Hcell1 i j la lo Hla Hlo). specialize (Hcell' i j la lo Hla Hlo).
    destruct (last_assignment rs la lo) as [f|]; [done|].
    destruct (if at_point la lo r then row_attrs r "FIPS" else None) as [f|].
    + destruct Hcell' as [-> ->]. done.
    + destruct Hcell' as [-> ->]. done.
Qed.

(** The whole loop from the freshly initialised arrays. *)
Lemma loop_spec :
  no_zero_count fips_counts (df_rows grid_with_counties) →
  ∃ st, iterrows (assign_row fips_counts grid_with_counties)
          (zeros rows cols, full rows cols None) (df_rows grid_with_counties) = inr st ∧
    has_shape st.1 rows cols ∧ has_shape st.2 rows cols ∧
    ∀ i j la lo,
      lat_axis grid_with_counties !! i = Some la →
      lon_axis grid_with_counties !! j = Some lo →
      match last_assignment (df_rows grid_with_counties) la lo with
      | Some f => get2 st.1 i j = Some (weight_for fips_counts f) ∧
                  get2 st.2 i j = Some (Some f)
      | None => get2 st.1 i j = Some 0 ∧ get2 st.2 i j = Some None
      end.
Proof.
  intros Hnz.
  destruct (iterrows_spec (df_rows grid_with_counties) (zeros rows cols, full rows cols None))
    as (st & Hst & Hw & Hf & Hcell); [done|done|apply full_shape|apply full_shape|].
  exists st. split; [done|]. split; [done|]. split; [done|].
  intros i j la lo Hla Hlo. specialize (Hcell i j la lo Hla Hlo).
  destruct (last_assignment _ la lo); [done|].
  destruct Hcell as [-> ->]. simpl.
  apply lookup_lt_Some in Hla, Hlo.
  split; [apply (get2_full rows cols 0) | apply get2_full]; done.
Qed.
End loop.

(** ** [create_weight_mask] on a table *)

Lemma last_assignment_elem_of (rs : list Row) (la lo : Q) (f : Z) :
  last_assignment rs la lo = Some f →
  ∃ r, r ∈ rs ∧ row_attrs r "FIPS" = Some f ∧ at_point la lo r = true.
Proof.
  induction rs as [|r rs IH]; simpl; [discriminate|].
  destruct (last_assignment rs la lo) as [f'|].
  - intros [= ->]. destruct IH as (r' & Hr' & Hf & Hat); [done|].
    exists r'. split; [by right|done].
  - destruct (at_point la lo r) eqn:Eat; [|discriminate].
    intros Hf. exists r. split; [left|done].
Qed.

Lemma last_assignment_counted (df : DataFrame) (la lo : Q) (f : Z) :
  last_assignment (df_rows df) la lo = Some f → (0 < count_of (fips_of df) f)%nat.
Proof.
  intros (r & Hr & Hf & _)%last_assignment_elem_of.
  apply count_of_pos. unfold fips_of. rewrite <- Hf.
  by apply (list_elem_of_fmap_2 (λ r, row_attrs r "FIPS")).
Qed.

Lemma weight_for_value_counts (col : list (option Z)) (f : Z) :
  (0 < count_of col f)%nat →
  weight_for (value_counts col) f = 1 / inject_Z (Z.of_nat (count_of col f)).
Proof.
  intros Hpos. unfold weight_for. rewrite value_counts_lookup.
  rewrite decide_False by lia. done.
Qed.

(** The table-level behaviour of [create_weight_mask]: with a [FIPS]
    column it returns a dataset whose two layers have the shape of the two
    axes and whose cells are given by the last assignment of their point. *)
Lemma weight_mask_of_spec (df : DataFrame) :
  "FIPS" ∈ df_columns df →
  ∃ ds, weight_mask_of df = inr ds ∧
    ds_lat ds = sort (lat_axis df) ∧ ds_lon ds = sort (lon_axis df) ∧
    has_shape (ds_weights ds) (length (lat_axis df)) (length (lon_axis df)) ∧
    has_shape (ds_FIPS ds) (length (lat_axis df)) (length (lon_axis df)) ∧
    ∀ i j la lo,
      lat_axis df !! i = Some la → lon_axis df !! j = Some lo →
      match last_assignment (df_rows df) la lo with
      | Some f => get2 (ds_weights ds) i j = Some (1 / inject_Z (Z.of_nat (count_of (fips_of df) f))) ∧
                  get2 (ds_FIPS ds) i j = Some (Some f)
      | None => get2 (ds_weights ds) i j = Some 0 ∧ get2 (ds_FIPS ds) i j = Some None
      end.
Proof.
  intros Hcol.
  destruct (loop_spec (value_counts (fips_of df)) df
              (λ r k _ _, value_counts_nonzero (fips_of df) k))
    as (st & Hst & Hw & Hf & Hcell).
  unfold weight_mask_of, column. rewrite bool_decide_true by done. simpl.
  fold (fips_of df). fold (lat_axis df). fold (lon_axis df).
  rewrite Hst. simpl. eexists. split; [reflexivity|]. simpl.
  split; [done|]. split; [done|]. split; [done|]. split; [done|].
  intros i j la lo Hla Hlo. specialize (Hcell i j la lo Hla Hlo).
  destruct (last_assignment (df_rows df) la lo) as [f|] eqn:El; [|done].
  rewrite <- weight_for_value_counts by (by eapply last_assignment_counted). done.
Qed.

Lemma weight_mask_of_no_column (df : DataFrame) :
  "FIPS" ∉ df_columns df → weight_mask_of df = inl (KeyError "FIPS").
Proof.
  intros Hcol. unfold weight_mask_of, column. by rewrite bool_decide_false.
Qed.

(** ** Sums of rationals *)

Lemma Qsum_map_ext {A} (f g : A → Q) (l : list A) :
  (∀ x, x ∈ l → f x == g x) → Qsum (map f l) == Qsum (map g l).
Proof.
  induction l as [|a l IH]; intros H; simpl; [reflexivity|].
  rewrite (H a) by left. rewrite IH; [reflexivity|].
  intros x Hx. apply H. by right.
Qed.

(** Changing one term of a sum over a duplicate-free index list. *)
Lemma Qsum_map_point {A} (f g : A → Q) (l : list A) (x0 : A) :
  NoDup l → x0 ∈ l → (∀ x, x ∈ l → x ≠ x0 → g x == f x) →
  Qsum (map g l) == Qsum (map f l) + (g x0 - f x0).
Proof.
  induction l as [|a l IH]; intros Hnd Hin H; [by apply elem_of_nil in Hin|].
  apply NoDup_cons in Hnd as [Ha Hnd]. simpl.
  apply elem_of_cons in Hin as [->|Hin].
  - rewrite (Qsum_map_ext g f l); [ring|].
    intros x Hx. apply H; [by right|]. intros ->. done.
  - rewrite IH; [|done|done|intros x Hx; apply H; by right].
    rewrite (H a); [ring|left|]. intros ->. done.
Qed.

Lemma sum_over_cells_ext (rows cols : nat) (f g : nat → nat → Q) :
  (∀ i j, (i < rows)%nat → (j < cols)%nat → f i j == g i j) →
  sum_over_cells rows cols f == sum_over_cells rows cols g.
Proof.
  intros H. unfold sum_over_cells. apply Qsum_map_ext.
  intros i Hi%elem_of_seq. apply Qsum_map_ext.
  intros j Hj%elem_of_seq. apply H; lia.
Qed.

Lemma sum_over_cells_point (rows cols : nat) (f g : nat → nat → Q) (i0 j0 : nat) :
  (i0 < rows)%nat → (j0 < cols)%nat →
  (∀ i j, (i < rows)%nat → (j < cols)%nat → ¬ (i = i0 ∧ j = j0) → g i j == f i j) →
  sum_over_cells rows cols g == sum_over_cells rows cols f + (g i0 j0 - f i0 j0).
Proof.
  intros Hi0 Hj0 H. unfold sum_over_cells.
  rewrite (Qsum_map_point (λ i, Qsum (map (f i) (seq 0 cols)))
             (λ i, Qsum (map (g i) (seq 0 cols))) (seq 0 rows) i0).
  - rewrite (Qsum_map_point (f i0) (g i0) (seq 0 cols) j0).
    + ring.
    + apply NoDup_seq.
    + apply elem_of_seq. lia.
    + intros j Hj%elem_of_seq Hne. apply H; [done|lia|]. intros [_ ?]. done.
  - apply NoDup_seq.
  - apply elem_of_seq. lia.
  - intros i Hi%elem_of_seq Hne. apply Qsum_map_ext.
    intros j Hj%elem_of_seq. apply H; [lia|lia|]. intros [? _]. done.
Qed.

Lemma sum_over_cells_zero (rows cols : nat) :
  sum_over_cells rows cols (λ _ _, 0) == 0.
Proof.
  unfold sum_over_cells.
  assert (∀ (A : Type) (l : list A), Qsum (map (λ _, 0) l) == 0) as Hz.
  { intros A l. induction l as [|a l IH]; simpl; [reflexivity|]. rewrite IH. ring. }
  rewrite (Qsum_map_ext _ (λ _, 0)); [apply Hz|]. intros i _. apply Hz.
Qed.

(** ** Sorting *)

Lemma insert_sorted_length (x : Q) (l : list Q) :
  length (insert_sorted x l) = S (length l).
Proof.
  induction l as [|y l IH]; simpl; [done|].
  destruct (Qle_bool x y); simpl; [done|]. by rewrite IH.
Qed.

Lemma sort_length (l : list Q) : length (sort l) = length l.
Proof.
  induction l as [|x l IH]; simpl; [done|].
  rewrite insert_sorted_length. by rewrite IH.
Qed.

(** ** Counting the cells of a region *)

Lemma count_of_cons (v : option Z) (col : list (option Z)) (R : Z) :
  count_of (v :: col) R = ((if bool_decide (v = Some R) then 1 else 0) + count_of col R)%nat.
Proof.
  unfold count_of. rewrite filter_cons.
  destruct (decide (v = Some R)).
  - by rewrite bool_decide_true.
  - by rewrite bool_decide_false.
Qed.

Section cells.
Variable df : DataFrame.
Variable R : Z.
Variable w : Q.

Let rows := length (lat_axis df).
Let cols := length (lon_axis df).

(** The position of a row of the table on the two axes. *)
Lemma row_position (r : Row) :
  r ∈ df_rows df →
  ∃ i0 j0 la0 lo0,
    lat_axis df !! i0 = Some la0 ∧ lon_axis df !! j0 = Some lo0 ∧
    la0 == row_lat r ∧ lo0 == row_lon r.
Proof.
  intros Hr.
  destruct (first_index_unique (map row_lat (df_rows df)) (row_lat r))
    as [i0 Hi0]; [by apply list_elem_of_fmap_2|].
  destruct (first_index_unique (map row_lon (df_rows df)) (row_lon r))
    as [j0 Hj0]; [by apply list_elem_of_fmap_2|].
  apply first_index_ok in Hi0 as (la0 & Hla0 & Heq1).
  apply first_index_ok in Hj0 as (lo0 & Hlo0 & Heq2).
  by exists i0, j0, la0, lo0.
Qed.

Lemma at_point_position (r : Row) (i j i0 j0 : nat) (la lo la0 lo0 : Q) :
  lat_axis df !! i = Some la → lon_axis df !! j = Some lo →
  lat_axis df !! i0 = Some la0 → lon_axis df !! j0 = Some lo0 →
  la0 == row_lat r → lo0 == row_lon r →
  at_point la lo r = true ↔ i = i0 ∧ j = j0.
Proof.
  intros Hla Hlo Hla0 Hlo0 E1 E2. unfold at_point.
  rewrite andb_true_iff, !Qeq_bool_iff. split.
  - intros [H1 H2]. split.
    + eapply (Qdistinct_lookup (lat_axis df)); eauto using unique_distinct.
      by rewrite E1.
    + eapply (Qdistinct_lookup (lon_axis df)); eauto using unique_distinct.
      by rewrite E2.
  - intros [-> ->]. rewrite Hla in Hla0. rewrite Hlo in Hlo0.
    injection Hla0 as ->. injection Hlo0 as ->. split; by symmetry.
Qed.

Lemma assigned_cells_sum (rs : list Row) :
  (∀ r, r ∈ rs → r ∈ df_rows df) →
  distinct_assigned_points rs = true →
  sum_over_cells rows cols
    (λ i j, if bool_decide (cell_assignment df rs i j = Some R) then w else 0)
  == inject_Z (Z.of_nat (count_of (map (λ r, row_attrs r "FIPS") rs) R)) * w.
Proof.
  induction rs as [|r rs IH]; intros Hin Hd.
  - rewrite (sum_over_cells_ext _ _ _ (λ _ _, 0)).
    + rewrite sum_over_cells_zero. unfold count_of. simpl. ring.
    + intros i j _ _. unfold cell_assignment.
      destruct (lat_axis df !! i), (lon_axis df !! j); simpl; reflexivity.
  - simpl in Hd. apply andb_true_iff in Hd as [Hr Hd].
    specialize (IH (λ x Hx, Hin x (list_elem_of_further _ _ _ Hx)) Hd).
    simpl map. rewrite count_of_cons.
    destruct (row_attrs r "FIPS") as [f|] eqn:Ef.
    + rewrite bool_decide_true in Hr by (by eexists).
      destruct (row_position r) as (i0 & j0 & la0 & lo0 & Hla0 & Hlo0 & E1 & E2);
        [apply Hin; left|].
      assert (last_assignment rs la0 lo0 = None) as Hnone.
      { destruct (last_assignment rs la0 lo0) as [f'|] eqn:El; [|done]. exfalso.
        apply last_assignment_elem_of in El as (r' & Hr' & Hf' & Hat).
        rewrite forallb_forall in Hr. apply list_elem_of_In in Hr'.
        specialize (Hr r' Hr'). apply negb_true_iff in Hr.
        unfold assigned_at in Hr. rewrite bool_decide_true in Hr by (by eexists).
        simpl in Hr. unfold at_point in Hr, Hat.
        apply andb_true_iff in Hat as [H1 H2]. apply Qeq_bool_iff in H1, H2.
        apply andb_false_iff in Hr as [Hr|Hr]; apply Qeq_bool_false in Hr; apply Hr.
        - by rewrite H1, E1.
        - by rewrite H2, E2. }
      rewrite (sum_over_cells_point rows cols
                 (λ i j, if bool_decide (cell_assignment df rs i j = Some R) then w else 0)
                 _ i0 j0).
      * rewrite IH. unfold cell_assignment. rewrite Hla0, Hlo0. simpl.
        rewrite Hnone.
        assert (at_point la0 lo0 r = true) as ->
          by (by eapply at_point_position).
        rewrite (bool_decide_false (None = Some R)) by done.
        destruct (decide (f = R)) as [->|Hne].
        -- rewrite !bool_decide_true by done.
           rewrite Nat2Z.inj_add, inject_Z_plus. simpl. ring.
        -- rewrite !bool_decide_false by congruence. simpl. ring.
      * by eapply lookup_lt_Some.
      * by eapply lookup_lt_Some.
      * intros i j Hi Hj Hne. unfold cell_assignment.
        destruct (lookup_lt_is_Some_2 (lat_axis df) i Hi) as [la Hla].
        destruct (lookup_lt_is_Some_2 (lon_axis df) j Hj) as [lo Hlo].
        rewrite Hla, Hlo. simpl.
        assert (at_point la lo r = false) as ->.
        { destruct (at_point la lo r) eqn:Eat; [|done]. exfalso. apply Hne.
          by eapply at_point_position. }
        destruct (last_assignment rs la lo); reflexivity.
    + rewrite bool_decide_false by done. simpl.
      rewrite <- IH. apply sum_over_cells_ext. intros i j _ _.
      unfold cell_assignment.
      destruct (lat_axis df !! i) as [la|], (lon_axis df !! j) as [lo|]; try reflexivity.
      simpl. rewrite Ef.
      destruct (last_assignment rs la lo); [reflexivity|].
      destruct (at_point la lo r); reflexivity.
Qed.
End cells.

(** ** Region weights *)

Lemma create_weight_mask_table (self : CountyMaskGenerator) (df : DataFrame) :
  grid_with_counties self = Some df → create_weight_mask self = weight_mask_of df.
Proof. intros H. unfold create_weight_mask. by rewrite H. Qed.

Lemma weight_mask_of_column (df : DataFrame) (ds : Dataset) :
  weight_mask_of df = inr ds → "FIPS" ∈ df_columns df.
Proof.
  intros H. destruct (decide ("FIPS" ∈ df_columns df)) as [|Hn]; [done|].
  rewrite weight_mask_of_no_column in H by done. discriminate.
Qed.

Lemma get2_lt {A} (a : list (list A)) (rows cols i j : nat) (v : A) :
  has_shape a rows cols → get2 a i j = Some v → (i < rows)%nat ∧ (j < cols)%nat.
Proof.
  intros [Hl Hr] H. unfold get2 in H.
  destruct (a !! i) as [r|] eqn:Er; [|discriminate]. simpl in H.
  split.
  - rewrite <- Hl. by eapply lookup_lt_Some.
  - rewrite <- (Hr _ _ Er). by eapply lookup_lt_Some.
Qed.

Lemma inject_nat_nonzero (n : nat) : (0 < n)%nat → ¬ inject_Z (Z.of_nat n) == 0.
Proof.
  intros Hn H. unfold Qeq in H. simpl in H. lia.
Qed.

(** The sum of a region's weights, for a table without two assigned rows
    at one point. *)
Lemma weight_mask_of_region_sum (df : DataFrame) (ds : Dataset) (R : Z) :
  distinct_assigned_points (df_rows df) = true →
  weight_mask_of df = inr ds →
  region_present R ds →
  region_sum R ds == 1.
Proof.
  intros Hd Hds (i0 & j0 & Hpresent).
  destruct (weight_mask_of_spec df) as (ds' & Hds' & Hlat & Hlon & Hw & Hf & Hcell);
    [by eapply weight_mask_of_column|].
  rewrite Hds in Hds'. injection Hds' as <-.
  (* the region is counted at least once *)
  assert (0 < count_of (fips_of df) R)%nat as Hpos.
  { destruct (get2_lt _ _ _ _ _ _ Hf Hpresent) as [Hi0 Hj0].
    destruct (lookup_lt_is_Some_2 _ _ Hi0) as [la Hla].
    destruct (lookup_lt_is_Some_2 _ _ Hj0) as [lo Hlo].
    specialize (Hcell i0 j0 la lo Hla Hlo).
    destruct (last_assignment (df_rows df) la lo) as [f|] eqn:El.
    - destruct Hcell as [_ Hc]. rewrite Hpresent in Hc. injection Hc as ->.
      by eapply last_assignment_counted.
    - destruct Hcell as [_ Hc]. rewrite Hpresent in Hc. discriminate. }
  unfold region_sum. rewrite Hlat, Hlon, !sort_length.
  rewrite (sum_over_cells_ext _ _ _
             (λ i j, if bool_decide (cell_assignment df (df_rows df) i j = Some R)
                     then 1 / inject_Z (Z.of_nat (count_of (fips_of df) R)) else 0)).
  - rewrite assigned_cells_sum by done. fold (fips_of df).
    field. by apply inject_nat_nonzero.
  - intros i j Hi Hj. unfold cell_assignment.
    destruct (lookup_lt_is_Some_2 _ _ Hi) as [la Hla].
    destruct (lookup_lt_is_Some_2 _ _ Hj) as [lo Hlo].
    rewrite Hla, Hlo. specialize (Hcell i j la lo Hla Hlo).
    destruct (last_assignment (df_rows df) la lo) as [f|] eqn:El.
    + destruct Hcell as [-> ->]. simpl.
      repeat case_bool_decide; simplify_eq; reflexivity.
    + destruct Hcell as [-> ->]. simpl.
      repeat case_bool_decide; simplify_eq; reflexivity.
Qed.

(** ** [linspace] and the grid *)

Lemma linspace_negative (start stop : Q) (num : Z) :
  (num < 0)%Z →
  linspace start stop num = inl (ValueError "Number of samples must be non-negative.").
Proof.
  intros H. unfold linspace. by rewrite (proj2 (Z.ltb_lt _ _) H).
Qed.

Lemma linspace_length (start stop : Q) (num : Z) :
  (0 ≤ num)%Z →
  ∃ l, linspace start stop num = inr l ∧ length l = Z.to_nat num.
Proof.
  intros H. unfold linspace. rewrite (proj2 (Z.ltb_ge _ _)) by lia.
  eexists. split; [reflexivity|].
  destruct (1 <? num)%Z; rewrite ?length_insert, length_map, length_seq; done.
Qed.

Lemma linspace_single (start stop : Q) :
  linspace start stop 1 = inr [0 * (stop - start) + start].
Proof. reflexivity. Qed.

(** With at least two samples: multiples of the step, and [stop] itself
    in the last place. *)
Lemma linspace_lookup (start stop : Q) (num : Z) (l : list Q) (i : nat) :
  (2 ≤ num)%Z → linspace start stop num = inr l → (i < Z.to_nat num)%nat →
  l !! i = Some (if decide (i = pred (Z.to_nat num)) then stop
                 else inject_Z (Z.of_nat i) * ((stop - start) / inject_Z (num - 1)) + start).
Proof.
  intros Hnum Hl Hi. unfold linspace in Hl.
  rewrite (proj2 (Z.ltb_ge _ _)) in Hl by lia.
  rewrite (proj2 (Z.ltb_lt 1 num)) in Hl by lia.
  rewrite (proj2 (Z.ltb_lt 0 (num - 1))) in Hl by lia.
  injection Hl as <-.
  change (map ?f ?x) with (f <$> x).
  destruct (decide (i = pred (Z.to_nat num))) as [->|Hne].
  - rewrite list_lookup_insert_eq; [done|].
    rewrite length_fmap, length_seq. lia.
  - rewrite list_lookup_insert_ne by done.
    rewrite list_lookup_fmap, lookup_seq_lt by done. done.
Qed.

Lemma linspace_evenly_spaced (start stop : Q) (num : Z) (l : list Q) :
  start <= stop → linspace start stop num = inr l → evenly_spaced_ascending l.
Proof.
  intros Hle Hl.
  destruct (Z.lt_ge_cases num 0) as [Hneg|Hnn].
  { rewrite linspace_negative in Hl by done. discriminate. }
  destruct (linspace_length start stop num Hnn) as (l' & Hl' & Hlen).
  rewrite Hl in Hl'. injection Hl' as <-.
  destruct (Z.lt_ge_cases num 2) as [Hsmall|Hbig].
  - exists 0. split; [apply Qle_refl|]. intros i x y Hx Hy.
    apply lookup_lt_Some in Hy. lia.
  - exists ((stop - start) / inject_Z (num - 1)).
    assert (0 < inject_Z (num - 1)) as Hpos.
    { change 0 with (inject_Z 0). rewrite <- Zlt_Qlt. lia. }
    split.
    + apply Qle_shift_div_l; [done|]. rewrite Qmult_0_l.
      unfold Qminus. by rewrite <- Qle_minus_iff.
    + intros i x y Hx Hy.
      pose proof (lookup_lt_Some _ _ _ Hy) as Hi.
      rewrite (linspace_lookup start stop num l i) in Hx by (done || lia).
      rewrite (linspace_lookup start stop num l (S i)) in Hy by (done || lia).
      rewrite decide_False in Hx by lia. injection Hx as <-.
      destruct (decide (S i = pred (Z.to_nat num))) as [Hlast|Hmid].
      * injection Hy as <-.
        assert (inject_Z (Z.of_nat i) == inject_Z (num - 1) - 1) as ->.
        { assert (Z.of_nat i = (num - 1) + (-1))%Z as -> by lia.
          rewrite inject_Z_plus. reflexivity. }
        field. intros H0. rewrite H0 in Hpos. by apply Qlt_irrefl in Hpos.
      * injection Hy as <-.
        rewrite Nat2Z.inj_succ. unfold Z.succ. rewrite inject_Z_plus. ring.
Qed.

Lemma linspace_endpoints (start stop : Q) (num : Z) (l : list Q) :
  (1 ≤ num)%Z → linspace start stop num = inr l →
  (∃ x, l !! 0%nat = Some x ∧ x == start) ∧
  ((2 ≤ num)%Z → last l = Some stop) ∧
  (num = 1%Z → ∃ x, l = [x] ∧ x == start).
Proof.
  intros Hnum Hl. split; [|split].
  - destruct (Z.lt_ge_cases num 2) as [Hsmall|Hbig].
    + assert (num = 1%Z) as -> by lia. rewrite linspace_single in Hl.
      injection Hl as <-. eexists. split; [reflexivity|]. ring.
    + rewrite (linspace_lookup start stop num l 0) by (done || lia).
      destruct (decide (0%nat = pred (Z.to_nat num))); [lia|].
      eexists. split; [reflexivity|]. simpl. ring.
  - intros Hbig.
    destruct (linspace_length start stop num) as (l' & Hl' & Hlen); [lia|].
    rewrite Hl in Hl'. injection Hl' as <-.
    rewrite last_lookup, Hlen.
    rewrite (linspace_lookup start stop num l) by (done || lia).
    by rewrite decide_True.
  - intros ->. rewrite linspace_single in Hl. injection Hl as <-.
    eexists. split; [reflexivity|]. ring.
Qed.

Lemma zip_with_constant {A} (f : Q → Q → A) (lon : list Q) (la : Q) :
  zip_with f lon (map (λ _, la) lon) = map (λ lo, f lo la) lon.
Proof. induction lon as [|lo lon IH]; simpl; [done|]. by rewrite IH. Qed.

(** The frame built from the two ravelled mesh grids lists the points in
    row-major order. *)
Lemma meshgrid_row_major (lon lat : list Q) :
  df_rows (DataFrame_lon_lat (ravel (meshgrid lon lat).1) (ravel (meshgrid lon lat).2))
  = row_major lat lon.
Proof.
  unfold meshgrid, ravel, DataFrame_lon_lat, row_major. simpl.
  induction lat as [|la lat IH]; simpl; [done|].
  rewrite zip_with_app by (by rewrite length_map).
  by rewrite IH, zip_with_constant.
Qed.

Lemma row_major_length (lat lon : list Q) :
  length (row_major lat lon) = (length lat * length lon)%nat.
Proof.
  unfold row_major. induction lat as [|la lat IH]; simpl; [done|].
  rewrite length_app, length_map. simpl in IH. by rewrite IH.
Qed.

Lemma row_major_lookup (lat lon : list Q) (i j : nat) (la lo : Q) :
  lat !! i = Some la → lon !! j = Some lo →
  row_major lat lon !! (i * length lon + j)%nat = Some (mkRow lo la (λ _, None)).
Proof.
  unfold row_major. revert i. induction lat as [|a lat IH]; intros i Hla Hlo; [done|].
  simpl. destruct i as [|i]; simpl in *.
  - injection Hla as ->. rewrite lookup_app_l.
    + change (map ?f ?x) with (f <$> x). by rewrite list_lookup_fmap, Hlo.
    + rewrite length_map. by eapply lookup_lt_Some.
  - rewrite lookup_app_r by (rewrite length_map; lia).
    rewrite length_map.
    replace (length lon + i * length lon + j - length lon)%nat
      with (i * length lon + j)%nat by lia.
    by apply IH.
Qed.

(** [generate_grid_points] in terms of the two axes. *)
Lemma generate_grid_points_unfold (self : CountyMaskGenerator)
    (lat_range lon_range : option (Q * Q)) (lat_steps lon_steps : option Z) :
  generate_grid_points self lat_range lon_range lat_steps lon_steps =
    (lat ← linspace (lat_range_of self lat_range).1 (lat_range_of self lat_range).2
            (steps_of lat_steps);
     lon ← linspace (lon_range_of self lon_range).1 (lon_range_of self lon_range).2
            (steps_of lon_steps);
     let points := {| df_columns := []; df_rows := row_major lat lon |} in
     ok ({| county_identifier := county_identifier self;
            counties := counties self;
            grid_points := Some points;
            grid_with_counties := grid_with_counties self |}, points)).
Proof.
  unfold generate_grid_points, lat_range_of, lon_range_of, steps_of.
  assert (∀ la lo : Q * Q,
    (lat ← linspace la.1 la.2 (default 100%Z lat_steps);
     lon ← linspace lo.1 lo.2 (default 100%Z lon_steps);
     let '(lon_grid, lat_grid) := meshgrid lon lat in
     let points := DataFrame_lon_lat (ravel lon_grid) (ravel lat_grid) in
     ok ({| county_identifier := county_identifier self;
            counties := counties self;
            grid_points := Some points;
            grid_with_counties := grid_with_counties self |}, points))
    = (lat ← linspace la.1 la.2 (default 100%Z lat_steps);
       lon ← linspace lo.1 lo.2 (default 100%Z lon_steps);
       let points := {| df_columns := []; df_rows := row_major lat lon |} in
       ok ({| county_identifier := county_identifier self;
              counties := counties self;
              grid_points := Some points;
              grid_with_counties := grid_with_counties self |}, points))) as Hbody.
  { intros la lo.
    destruct (linspace la.1 la.2 _) as [e|lat]; [done|]. simpl.
    destruct (linspace lo.1 lo.2 _) as [e|lon]; [done|]. simpl.
    pose proof (meshgrid_row_major lon lat) as Hrm.
    unfold DataFrame_lon_lat in *. simpl in Hrm. by rewrite Hrm. }
  destruct (total_bounds (counties self)) as [[[min_lon min_lat] max_lon] max_lat].
  destruct lat_range as [la|], lon_range as [lo|].
  - exact (Hbody la lo).
  - exact (Hbody la (min_lon, max_lon)).
  - exact (Hbody (min_lat, max_lat) lo).
  - exact (Hbody (min_lat, max_lat) (min_lon, max_lon)).
Qed.

(** ** Construction *)

Lemma validate_shapefile_one (fs : filesystem) (path name : string) :
  validate_shapefile fs path [name] = true ↔
  ∃ gdf, fs path = Some gdf ∧ name ∈ gdf_columns gdf.
Proof.
  unfold validate_shapefile. destruct (fs path) as [gdf|]; simpl.
  - case_bool_decide.
    + split; [eauto|done].
    + split; [done|]. intros (g & [= <-] & Hin). done.
  - split; [done|]. intros (g & Hg & _). done.
Qed.

Lemma init_spec (fs : filesystem) (path name : string) :
  match __init__ fs path name with
  | inr self => ∃ gdf, fs path = Some gdf ∧ name ∈ gdf_columns gdf ∧ self = fresh name gdf
  | inl e => e = ValueError "Shapefile validation failed." ∧
             (fs path = None ∨ ∃ gdf, fs path = Some gdf ∧ name ∉ gdf_columns gdf)
  end.
Proof.
  unfold __init__. destruct (validate_shapefile fs path [name]) eqn:Ev; simpl.
  - apply validate_shapefile_one in Ev as (gdf & Hfs & Hin).
    unfold load_county_shapefile, read_file. rewrite Hfs. simpl. eauto.
  - split; [done|]. destruct (fs path) as [gdf|] eqn:Hfs; [right|by left].
    exists gdf. split; [done|]. intros Hin.
    assert (validate_shapefile fs path [name] = true) as Ht
      by (apply validate_shapefile_one; eauto).
    congruence.
Qed.

(** ** The attributes the stages leave on the instance *)

Lemma perform_all_snoc (self : CountyMaskGenerator) (calls : list call) (c : call) :
  perform_all self (calls ++ [c]) = perform (perform_all self calls) c.
Proof. unfold perform_all. by rewrite foldl_app. Qed.

Lemma generate_grid_points_attributes (self self' : CountyMaskGenerator)
    (lat_range lon_range : option (Q * Q)) (lat_steps lon_steps : option Z) (points : DataFrame) :
  generate_grid_points self lat_range lon_range lat_steps lon_steps = inr (self', points) →
  grid_points self' = Some points ∧ grid_with_counties self' = grid_with_counties self.
Proof.
  rewrite generate_grid_points_unfold.
  intros (lat & _ & (lon & _ & [= <- <-])%bind_ok)%bind_ok. done.
Qed.

Lemma assign_grid_to_county_attributes (self self' : CountyMaskGenerator) (joined : DataFrame) :
  assign_grid_to_county self = inr (self', joined) →
  is_Some (grid_points self) ∧
  grid_points self' = grid_points self ∧ grid_with_counties self' = Some joined.
Proof.
  unfold assign_grid_to_county. destruct (grid_points self) as [p|] eqn:Ep; [|discriminate].
  intros [= <- <-]. simpl. eauto.
Qed.

Lemma assign_grid_to_county_needs_grid (self : CountyMaskGenerator) :
  succeeds (assign_grid_to_county self) ↔ is_Some (grid_points self).
Proof.
  unfold succeeds, assign_grid_to_county. destruct (grid_points self) as [p|].
  - split; eauto.
  - split; [intros [a Ha]; discriminate | intros [x Hx]; discriminate].
Qed.

Lemma create_weight_mask_needs_table (self : CountyMaskGenerator) :
  succeeds (create_weight_mask self) → is_Some (grid_with_counties self).
Proof.
  unfold succeeds, create_weight_mask. destruct (grid_with_counties self) as [df|]; [eauto|].
  intros [a Ha]. discriminate.
Qed.

(** [grid_points] only ever comes from a successful [generate_grid_points]. *)
Lemma grid_points_history (self : CountyMaskGenerator) (calls : list call) :
  grid_points self = None →
  is_Some (grid_points (perform_all self calls)) →
  ∃ before after lat_range lon_range lat_steps lon_steps,
    calls = before ++ GenerateGridPoints lat_range lon_range lat_steps lon_steps :: after ∧
    succeeds (generate_grid_points (perform_all self before)
                lat_range lon_range lat_steps lon_steps).
Proof.
  intros Hfresh. induction calls as [|c calls IH] using rev_ind.
  - simpl. rewrite Hfresh. intros [x Hx]. discriminate.
  - rewrite perform_all_snoc. intros Hsome.
    assert (is_Some (grid_points (perform_all self calls)) →
            ∃ before after lat_range lon_range lat_steps lon_steps,
              calls ++ [c] = before ++ GenerateGridPoints lat_range lon_range lat_steps lon_steps :: after ∧
              succeeds (generate_grid_points (perform_all self before)
                          lat_range lon_range lat_steps lon_steps)) as Hold.
    { intros H. destruct (IH H) as (before & after & a & b & s & t & -> & Hs).
      exists before, (after ++ [c]), a, b, s, t. split; [|done].
      by rewrite <- app_assoc. }
    destruct c as [a b s t| |]; simpl in Hsome.
    + destruct (generate_grid_points (perform_all self calls) a b s t) as [e|[self' pts]] eqn:Eg.
      * by apply Hold.
      * exists calls, [], a, b, s, t. split; [done|]. rewrite Eg. by eexists.
    + destruct (assign_grid_to_county (perform_all self calls)) as [e|[self' joined]] eqn:Ea.
      * by apply Hold.
      * apply assign_grid_to_county_attributes in Ea as (_ & Hgp & _).
        apply Hold. by rewrite <- Hgp.
    + by apply Hold.
Qed.

(** [grid_with_counties] only ever comes from a successful
    [assign_grid_to_county]. *)
Lemma grid_with_counties_history (self : CountyMaskGenerator) (calls : list call) :
  grid_with_counties self = None →
  is_Some (grid_with_counties (perform_all self calls)) →
  ∃ before after,
    calls = before ++ AssignGridToCounty :: after ∧
    succeeds (assign_grid_to_county (perform_all self before)).
Proof.
  intros Hfresh. induction calls as [|c calls IH] using rev_ind.
  - simpl. rewrite Hfresh. intros [x Hx]. discriminate.
  - rewrite perform_all_snoc. intros Hsome.
    assert (is_Some (grid_with_counties (perform_all self calls)) →
            ∃ before after,
              calls ++ [c] = before ++ AssignGridToCounty :: after ∧
              succeeds (assign_grid_to_county (perform_all self before))) as Hold.
    { intros H. destruct (IH H) as (before & after & -> & Hs).
      exists before, (after ++ [c]). split; [|done]. by rewrite <- app_assoc. }
    destruct c as [a b s t| |]; simpl in Hsome.
    + destruct (generate_grid_points (perform_all self calls) a b s t) as [e|[self' pts]] eqn:Eg.
      * by apply Hold.
      * apply generate_grid_points_attributes in Eg as (_ & Hgwc).
        apply Hold. by rewrite <- Hgwc.
    + destruct (assign_grid_to_county (perform_all self calls)) as [e|[self' joined]] eqn:Ea.
      * by apply Hold.
      * exists calls, []. split; [done|]. rewrite Ea. by eexists.
    + by apply Hold.
Qed.

(** Equal coordinates name the same grid point. *)
Lemma at_point_proper (la lo la' lo' : Q) (r : Row) :
  la == la' → lo == lo' → at_point la lo r = at_point la' lo' r.
Proof.
  intros Ha Ho. unfold at_point.
  assert (∀ x y y', y == y' → Qeq_bool x y = Qeq_bool x y') as Hq.
  { intros x y y' Hy. destruct (Qeq_bool x y') eqn:E.
    - apply Qeq_bool_iff. apply Qeq_bool_iff in E. by rewrite Hy.
    - apply Qeq_bool_false. apply Qeq_bool_false in E. by rewrite Hy. }
  by rewrite (Hq _ la la' Ha), (Hq _ lo lo' Ho).
Qed.

Lemma last_assignment_proper (rs : list Row) (la lo la' lo' : Q) :
  la == la' → lo == lo' → last_assignment rs la lo = last_assignment rs la' lo'.
Proof.
  intros Ha Ho. induction rs as [|r rs IH]; simpl; [done|].
  by rewrite IH, (at_point_proper la lo la' lo' r Ha Ho).
Qed.

(** ** Sorted axes *)

Lemma sort_ascending (l : list Q) : strictly_ascending l → sort l = l.
Proof.
  induction l as [|x l IH]; [done|]. intros [Hx Hl]. simpl.
  rewrite (IH Hl). destruct l as [|y l]; [done|]. simpl.
  assert (Qle_bool x y = true) as ->; [|done].
  apply Qle_bool_iff. by apply Qlt_le_weak.
Qed.

(** When both axes of the table first appear in ascending order, the
    coordinates of the dataset are the axes the loop indexes by, and the
    value of every row's grid point sits at the position of its latitude
    and longitude on the coordinates. *)
Lemma weight_mask_of_co_indexed (df : DataFrame) (r : Row) :
  "FIPS" ∈ df_columns df →
  strictly_ascending (lat_axis df) → strictly_ascending (lon_axis df) →
  r ∈ df_rows df →
  ∃ ds i j,
    weight_mask_of df = inr ds ∧
    first_index (ds_lat ds) (row_lat r) = inr i ∧
    first_index (ds_lon ds) (row_lon r) = inr j ∧
    get2 (ds_FIPS ds) i j = Some (last_assignment (df_rows df) (row_lat r) (row_lon r)).
Proof.
  intros Hcol Hlat Hlon Hr.
  destruct (weight_mask_of_spec df Hcol) as (ds & Hds & Elat & Elon & _ & _ & Hcell).
  rewrite (sort_ascending _ Hlat) in Elat. rewrite (sort_ascending _ Hlon) in Elon.
  destruct (row_lat_index df r Hr) as (i & Hi & _).
  destruct (row_lon_index df r Hr) as (j & Hj & _).
  exists ds, i, j. rewrite Elat, Elon. split; [done|]. split; [done|]. split; [done|].
  destruct (first_index_ok _ _ _ Hi) as (la & Hla & Ela).
  destruct (first_index_ok _ _ _ Hj) as (lo & Hlo & Elo).
  specialize (Hcell i j la lo Hla Hlo).
  rewrite (last_assignment_proper _ la lo (row_lat r) (row_lon r)) in Hcell by done.
  destruct (last_assignment (df_rows df) (row_lat r) (row_lon r)); tauto.
Qed.

(** ** [create_weight_mask] for a given dict *)



(** * The claims *)

(** C1.  The weights of a region do not always sum to 1.  When a grid point
    lies within two overlapping regions, the spatial join yields one row
    per region for it; [create_weight_mask] counts both rows, but they share
    one cell and only the last one keeps it.  Here region 1 is counted
    twice and holds a single cell, of weight 1/2: its weights sum to 1/2. *)
Theorem overlapping_regions_break_normalisation :
  assigned_rows (fresh "FIPS" overlapping) (Some (0, 1)) (Some (0, 1)) (Some 2%Z) (Some 1%Z)
    = inr [(0, 0, Some 1%Z); (0, 0, Some 2%Z); (1, 0, Some 1%Z)] ∧
  run_pipeline (fresh "FIPS" overlapping) (Some (0, 1)) (Some (0, 1)) (Some 2%Z) (Some 1%Z)
    = inr overlap_mask ∧
  create_weight_mask (holding overlapping overlap_table) = inr overlap_mask ∧
  df_rows overlap_table ≠ [] ∧
  region_present 1 overlap_mask ∧
  region_sum 1 overlap_mask == 1 # 2 ∧
  ¬ Qabs (region_sum 1 overlap_mask - 1) <= 1 # 1000000000.
Proof.
  split; [vm_compute; reflexivity|].
  split; [vm_compute; reflexivity|].
  split; [vm_compute; reflexivity|].
  split; [discriminate|].
  split; [exists 1%nat, 0%nat; reflexivity|].
  split; [vm_compute; reflexivity|].
  vm_compute. intros H. apply H. reflexivity.
Qed.

(** C2.  The cell of a grid point does not always hold the point's
    assignment.  On the grid generated from a descending latitude range,
    the point at latitude 0 and longitude 0 is assigned to region 1, which
    the whole table references once: its cell should hold region 1 and
    weight 1/1, but the cell at the position of latitude 0 and longitude 0
    on the coordinates of the dataset holds the missing value and weight 0.
    The point at latitude 2 and longitude 0 is unassigned: its cell should
    hold the missing value and weight 0, but the cell at its position holds
    region 1 and weight 1.  The layers are written in the order in which the
    latitudes first appear and labelled in sorted order. *)
Theorem assigned_point_cell_mislabelled :
  assigned_rows (fresh "FIPS" two_squares) (Some (2, 0)) (Some (0, 2)) (Some 2%Z) (Some 2%Z)
    = inr [(2, 0, None); (2, 2, None); (0, 0, Some 1%Z); (0, 2, Some 2%Z)] ∧
  count_of [None; None; Some 1%Z; Some 2%Z] 1 = 1%nat ∧
  run_pipeline (fresh "FIPS" two_squares) (Some (2, 0)) (Some (0, 2)) (Some 2%Z) (Some 2%Z)
    = inr flipped_mask ∧
  ds_lat flipped_mask = [0; 2] ∧
  ds_lon flipped_mask = [0; 2] ∧
  get2 (ds_FIPS flipped_mask) 0 0 = Some None ∧
  get2 (ds_weights flipped_mask) 0 0 = Some 0 ∧
  get2 (ds_FIPS flipped_mask) 1 0 = Some (Some 1%Z) ∧
  get2 (ds_weights flipped_mask) 1 0 = Some 1.
Proof.
  split; [vm_compute; reflexivity|].
  split; [reflexivity|].
  split; [vm_compute; reflexivity|].
  repeat split; reflexivity.
Qed.

(** C3, amended.  For step counts [L], [W] of at least 1 and ranges given
    as (min, max) with min at most max, [generate_grid_points] produces
    exactly [L * W] points in row-major order: for each of the [L] evenly
    spaced ascending latitudes in turn, the [W] evenly spaced ascending
    longitudes.  Each axis starts at the lower endpoint of its range; it
    ends at the upper endpoint when its step count is at least 2, while
    with a step count of 1 its only value is the lower endpoint. *)
Theorem generate_grid_points_row_major (self : CountyMaskGenerator)
    (lat_min lat_max lon_min lon_max : Q) (L W : Z) :
  (1 ≤ L)%Z → (1 ≤ W)%Z → lat_min <= lat_max → lon_min <= lon_max →
  ∃ self' points lat lon,
    generate_grid_points self (Some (lat_min, lat_max)) (Some (lon_min, lon_max))
      (Some L) (Some W) = inr (self', points) ∧
    length lat = Z.to_nat L ∧ length lon = Z.to_nat W ∧
    df_rows points = row_major lat lon ∧
    length (df_rows points) = Z.to_nat (L * W) ∧
    (∀ i j la lo, lat !! i = Some la → lon !! j = Some lo →
       coordinates points !! (i * Z.to_nat W + j)%nat = Some (la, lo)) ∧
    axis_from_to lat_min lat_max lat ∧
    axis_from_to lon_min lon_max lon.
Proof.
  intros HL HW Hlat Hlon. rewrite generate_grid_points_unfold. simpl.
  destruct (linspace_length lat_min lat_max L) as (lat & Elat & Llat); [lia|].
  destruct (linspace_length lon_min lon_max W) as (lon & Elon & Llon); [lia|].
  unfold steps_of. simpl. rewrite Elat, Elon. simpl.
  eexists _, _, lat, lon. split; [reflexivity|]. simpl.
  split; [done|]. split; [done|]. split; [done|].
  split; [rewrite row_major_length; lia|].
  split.
  { intros i j la lo Hla Hlo. unfold coordinates. simpl.
    change (map ?f ?x) with (f <$> x). rewrite list_lookup_fmap, <- Llon.
    by rewrite (row_major_lookup lat lon i j la lo). }
  split.
  - split; [by apply (linspace_evenly_spaced lat_min lat_max L)|].
    destruct (linspace_endpoints lat_min lat_max L lat) as (H0 & Hlast & _); [done..|].
    split; [done|]. intros Hlen. apply Hlast. lia.
  - split; [by apply (linspace_evenly_spaced lon_min lon_max W)|].
    destruct (linspace_endpoints lon_min lon_max W lon) as (H0 & Hlast & _); [done..|].
    split; [done|]. intros Hlen. apply Hlast. lia.
Qed.

Lemma generate_grid_points_row_major_witness :
  ∃ self' points lat lon,
    generate_grid_points (fresh "FIPS" two_squares) (Some (0, 1)) (Some (0, 2))
      (Some 2%Z) (Some 3%Z) = inr (self', points) ∧
    length lat = Z.to_nat 2 ∧ length lon = Z.to_nat 3 ∧
    df_rows points = row_major lat lon ∧
    length (df_rows points) = Z.to_nat (2 * 3) ∧
    (∀ i j la lo, lat !! i = Some la → lon !! j = Some lo →
       coordinates points !! (i * Z.to_nat 3 + j)%nat = Some (la, lo)) ∧
    axis_from_to 0 1 lat ∧
    axis_from_to 0 2 lon.
Proof.
  apply (generate_grid_points_row_major (fresh "FIPS" two_squares) 0 1 0 2 2 3).
  - lia.
  - lia.
  - vm_compute. discriminate.
  - vm_compute. discriminate.
Defined.

(** C3 as stated fails for a step count of 1: the single latitude is the
    lower endpoint of the range, and the upper endpoint is not reached. *)
Lemma generate_grid_points_single_step_counterexample :
  generated_coordinates (fresh "FIPS" two_squares) (Some (0, 1)) (Some (0, 2))
    (Some 1%Z) (Some 2%Z) = inr [(0, 0); (0, 2)] ∧
  ¬ ∃ c, c ∈ [(0, 0); (0, 2)] ∧ c.1 == 1.
Proof.
  split; [vm_compute; reflexivity|].
  intros (c & Hc & H1).
  apply elem_of_cons in Hc as [->|Hc]; [vm_compute in H1; discriminate|].
  apply elem_of_cons in Hc as [->|Hc]; [vm_compute in H1; discriminate|].
  by apply elem_of_nil in Hc.
Qed.

(** C7, amended.  [generate_grid_points] validates nothing itself.  It fails
    exactly when a step count is negative, with the [ValueError] of
    [np.linspace] and before any point is generated; in every other case,
    whatever the spans of the ranges (negative, zero or positive) and also
    for a step count of zero, it succeeds and stores the grid of
    [lat_steps * lon_steps] points. *)
Theorem generate_grid_points_validation (self : CountyMaskGenerator)
    (lat_range lon_range : option (Q * Q)) (lat_steps lon_steps : option Z) :
  match generate_grid_points self lat_range lon_range lat_steps lon_steps with
  | inl e =>
      ((steps_of lat_steps < 0)%Z ∨ (steps_of lon_steps < 0)%Z) ∧
      e = ValueError "Number of samples must be non-negative."
  | inr (self', points) =>
      (0 ≤ steps_of lat_steps)%Z ∧ (0 ≤ steps_of lon_steps)%Z ∧
      grid_points self' = Some points ∧
      length (df_rows points) = Z.to_nat (steps_of lat_steps * steps_of lon_steps)
  end.
Proof.
  rewrite generate_grid_points_unfold.
  destruct (Z.lt_ge_cases (steps_of lat_steps) 0) as [Hneg|Hnn].
  { rewrite (linspace_negative (lat_range_of self lat_range).1 (lat_range_of self lat_range).2)
      by done.
    simpl. split; [by left|done]. }
  destruct (linspace_length (lat_range_of self lat_range).1 (lat_range_of self lat_range).2
              (steps_of lat_steps) Hnn) as (lat & -> & Llat). simpl.
  destruct (Z.lt_ge_cases (steps_of lon_steps) 0) as [Hneg|Hnn'].
  { rewrite (linspace_negative (lon_range_of self lon_range).1 (lon_range_of self lon_range).2)
      by done.
    simpl. split; [by right|done]. }
  destruct (linspace_length (lon_range_of self lon_range).1 (lon_range_of self lon_range).2
              (steps_of lon_steps) Hnn') as (lon & -> & Llon). simpl.
  split; [done|]. split; [done|]. split; [done|].
  rewrite row_major_length. lia.
Qed.

(** C7 as stated fails: a descending latitude range (negative span), a
    single-valued longitude range (zero span) and a step count of zero are
    all accepted. *)
Lemma generate_grid_points_validation_counterexample :
  generated_coordinates (fresh "FIPS" two_squares) (Some (1, 0)) (Some (2, 2))
    (Some 2%Z) (Some 2%Z) = inr [(1, 2); (1, 2); (0, 2); (0, 2)] ∧
  generated_coordinates (fresh "FIPS" two_squares) (Some (0, 1)) (Some (0, 2))
    (Some 0%Z) (Some 2%Z) = inr [].
Proof. split; vm_compute; reflexivity. Qed.

(** C4.  The weight mask is not keyed by the configured identifier: the
    constructor accepts and stores ['GEOID'], but [create_weight_mask] reads
    the column ['FIPS'] whatever identifier was configured.  On a shapefile
    keyed by [GEOID] alone the pipeline raises [KeyError]; on one that has
    both columns the counts and the region layer come from [FIPS]. *)
Theorem create_weight_mask_ignores_identifier :
  __init__ (disk two_squares_geoid) "counties.shp" "GEOID" = inr (fresh "GEOID" two_squares_geoid) ∧
  run_pipeline (fresh "GEOID" two_squares_geoid) (Some (0, 1)) (Some (0, 2)) (Some 1%Z) (Some 2%Z)
    = inl (KeyError "FIPS") ∧
  __init__ (disk two_keys) "counties.shp" "GEOID" = inr (fresh "GEOID" two_keys) ∧
  run_pipeline (fresh "GEOID" two_keys) (Some (0, 1)) (Some (0, 2)) (Some 1%Z) (Some 2%Z)
    = inr {| ds_FIPS := [[Some 1%Z; Some 2%Z]];
             ds_weights := [[1; 1]];
             ds_lat := [0];
             ds_lon := [0; 2] |} ∧
  ∀ (self : CountyMaskGenerator) (name : string),
    create_weight_mask {| county_identifier := name;
                          counties := counties self;
                          grid_points := grid_points self;
                          grid_with_counties := grid_with_counties self |}
    = create_weight_mask self.
Proof.
  split; [reflexivity|].
  split; [vm_compute; reflexivity|].
  split; [reflexivity|].
  split; [vm_compute; reflexivity|].
  reflexivity.
Qed.

(** C5, amended.  Construction does not look at the identifier values: it
    succeeds exactly when the shapefile can be read and has the configured
    identifier column, whether or not the identifiers are unique, and
    otherwise raises [ValueError]. *)
Theorem init_checks_column_only (fs : filesystem) (path name : string) :
  match __init__ fs path name with
  | inr self => ∃ gdf, fs path = Some gdf ∧ name ∈ gdf_columns gdf ∧ self = fresh name gdf
  | inl e => e = ValueError "Shapefile validation failed." ∧
             (fs path = None ∨ ∃ gdf, fs path = Some gdf ∧ name ∉ gdf_columns gdf)
  end.
Proof. apply init_spec. Qed.

(** C5 as stated fails: a shapefile with a repeated identifier is loaded
    without error. *)
Lemma init_duplicate_identifiers_counterexample :
  identifiers "FIPS" duplicated_ids = [Some 1%Z; Some 1%Z] ∧
  ¬ NoDup (identifiers "FIPS" duplicated_ids) ∧
  __init__ (disk duplicated_ids) "counties.shp" "FIPS" = inr (fresh "FIPS" duplicated_ids).
Proof.
  split; [reflexivity|]. split; [|reflexivity].
  intros H. apply NoDup_cons in H as [H _]. apply H. left.
Qed.

(** C8, amended.  [create_weight_mask] does not compare the axes with the
    number of rows.  For every assignment table with a [FIPS] column, also
    one whose distinct latitudes and longitudes do not match its number of
    rows, it returns a mask whose two layers have one row per distinct
    latitude and one column per distinct longitude, with as many
    coordinates on each axis. *)
Theorem create_weight_mask_any_shape (self : CountyMaskGenerator) (df : DataFrame) :
  grid_with_counties self = Some df →
  "FIPS" ∈ df_columns df →
  ∃ ds, create_weight_mask self = inr ds ∧
    has_shape (ds_FIPS ds) (length (lat_axis df)) (length (lon_axis df)) ∧
    has_shape (ds_weights ds) (length (lat_axis df)) (length (lon_axis df)) ∧
    length (ds_lat ds) = length (lat_axis df) ∧
    length (ds_lon ds) = length (lon_axis df).
Proof.
  intros Hself Hcol. rewrite (create_weight_mask_table self df Hself).
  destruct (weight_mask_of_spec df Hcol) as (ds & -> & Hlat & Hlon & Hw & Hf & _).
  exists ds. rewrite Hlat, Hlon, !sort_length. done.
Qed.

Lemma create_weight_mask_any_shape_witness :
  ∃ ds, create_weight_mask (holding two_squares diagonal_table) = inr ds ∧
    has_shape (ds_FIPS ds) (length (lat_axis diagonal_table)) (length (lon_axis diagonal_table)) ∧
    has_shape (ds_weights ds) (length (lat_axis diagonal_table)) (length (lon_axis diagonal_table)) ∧
    length (ds_lat ds) = length (lat_axis diagonal_table) ∧
    length (ds_lon ds) = length (lon_axis diagonal_table).
Proof.
  apply (create_weight_mask_any_shape (holding two_squares diagonal_table) diagonal_table).
  - reflexivity.
  - left.
Defined.

(** C8 as stated fails: a table of 2 rows whose axes have 2 latitudes and
    2 longitudes, hence 4 cells, yields a mask. *)
Lemma create_weight_mask_shape_counterexample :
  length (df_rows diagonal_table) = 2%nat ∧
  (length (lat_axis diagonal_table) * length (lon_axis diagonal_table) = 4)%nat ∧
  create_weight_mask (holding two_squares diagonal_table) = inr diagonal_mask.
Proof.
  split; [reflexivity|]. split; [reflexivity|]. vm_compute. reflexivity.
Qed.



(** C10.  The stages communicate through attributes of the instance.  On a
    freshly constructed instance [assign_grid_to_county] and
    [create_weight_mask] raise [AttributeError].  After any sequence of
    method calls, [assign_grid_to_county] either raises that error or an
    earlier call of [generate_grid_points] succeeded, and
    [create_weight_mask] either raises its error or an earlier call of
    [assign_grid_to_county] succeeded. *)
Theorem stages_need_their_predecessor
    (fs : filesystem) (path name : string) (self : CountyMaskGenerator) (calls : list call) :
  __init__ fs path name = inr self →
  assign_grid_to_county self = inl (AttributeError "grid_points") ∧
  create_weight_mask self = inl (AttributeError "grid_with_counties") ∧
  (assign_grid_to_county (perform_all self calls) = inl (AttributeError "grid_points") ∨
   ∃ before after lat_range lon_range lat_steps lon_steps,
     calls = before ++ GenerateGridPoints lat_range lon_range lat_steps lon_steps :: after ∧
     succeeds (generate_grid_points (perform_all self before)
                 lat_range lon_range lat_steps lon_steps)) ∧
  (create_weight_mask (perform_all self calls) = inl (AttributeError "grid_with_counties") ∨
   ∃ before after,
     calls = before ++ AssignGridToCounty :: after ∧
     succeeds (assign_grid_to_county (perform_all self before))).
Proof.
  intros Hinit. pose proof (init_spec fs path name) as Hspec. rewrite Hinit in Hspec.
  destruct Hspec as (gdf & _ & _ & ->).
  split; [reflexivity|]. split; [reflexivity|]. split.
  - destruct (grid_points (perform_all (fresh name gdf) calls)) as [p|] eqn:Ep.
    + right. apply grid_points_history; [done|]. rewrite Ep. by eexists.
    + left. unfold assign_grid_to_county. by rewrite Ep.
  - destruct (grid_with_counties (perform_all (fresh name gdf) calls)) as [t|] eqn:Et.
    + right. apply grid_with_counties_history; [done|]. rewrite Et. by eexists.
    + left. unfold create_weight_mask. by rewrite Et.
Qed.

Lemma stages_need_their_predecessor_witness :
  let self := fresh "FIPS" two_squares in
  let calls := [CreateWeightMask; GenerateGridPoints None None (Some 1%Z) (Some 2%Z);
                AssignGridToCounty] in
  assign_grid_to_county self = inl (AttributeError "grid_points") ∧
  create_weight_mask self = inl (AttributeError "grid_with_counties") ∧
  (assign_grid_to_county (perform_all self calls) = inl (AttributeError "grid_points") ∨
   ∃ before after lat_range lon_range lat_steps lon_steps,
     calls = before ++ GenerateGridPoints lat_range lon_range lat_steps lon_steps :: after ∧
     succeeds (generate_grid_points (perform_all self before)
                 lat_range lon_range lat_steps lon_steps)) ∧
  (create_weight_mask (perform_all self calls) = inl (AttributeError "grid_with_counties") ∨
   ∃ before after,
     calls = before ++ AssignGridToCounty :: after ∧
     succeeds (assign_grid_to_county (perform_all self before))).
Proof.
  apply (stages_need_their_predecessor (disk two_squares) "counties.shp" "FIPS").
  reflexivity.
Defined.

(** C6.  The two layers are indexed by the axes in order of first
    appearance, while the coordinates of the dataset are the sorted axes.
    On a grid generated from a descending latitude range the two orders
    differ: the point at latitude 0 and longitude 0 is assigned to region 1,
    its position on the sorted axes is (0, 0), but that cell holds the
    missing value and weight 0, and region 1 is stored in row 1, which the
    dataset labels with latitude 2. *)
Theorem descending_latitudes_mislabelled :
  assigned_rows (fresh "FIPS" two_squares) (Some (2, 0)) (Some (0, 2)) (Some 2%Z) (Some 2%Z)
    = inr [(2, 0, None); (2, 2, None); (0, 0, Some 1%Z); (0, 2, Some 2%Z)] ∧
  run_pipeline (fresh "FIPS" two_squares) (Some (2, 0)) (Some (0, 2)) (Some 2%Z) (Some 2%Z)
    = inr flipped_mask ∧
  first_index (ds_lat flipped_mask) 0 = inr 0%nat ∧
  first_index (ds_lon flipped_mask) 0 = inr 0%nat ∧
  get2 (ds_FIPS flipped_mask) 0 0 = Some None ∧
  get2 (ds_weights flipped_mask) 0 0 = Some 0 ∧
  get2 (ds_FIPS flipped_mask) 1 0 = Some (Some 1%Z) ∧
  ds_lat flipped_mask !! 1%nat = Some 2.
Proof.
  split; [vm_compute; reflexivity|].
  split; [vm_compute; reflexivity|].
  repeat split; reflexivity.
Qed.

(** * Further properties of the code *)

(** ** [validate_shapefile] *)

Lemma check_columns_spec (cols required_columns : list string) :
  check_columns cols required_columns = true ↔ ∀ c, c ∈ required_columns → c ∈ cols.
Proof.
  induction required_columns as [|c rest IH]; simpl.
  - split; [|done]. intros _ c Hc. by apply elem_of_nil in Hc.
  - case_bool_decide as Hc.
    + rewrite IH. split.
      * intros H c' [->|Hc']%elem_of_cons; auto.
      * intros H c' Hc'. apply H. by right.
    + split; [done|]. intros H. exfalso. apply Hc, H. left.
Qed.

(** X1.  [validate_shapefile] returns [True] exactly when the shapefile can
    be read and every required column is one of its columns; a file that
    cannot be read is reported as [False], not as an exception. *)
Theorem validate_shapefile_iff (fs : filesystem) (path : string) (required_columns : list string) :
  validate_shapefile fs path required_columns = true ↔
  ∃ counties, fs path = Some counties ∧
              ∀ c, c ∈ required_columns → c ∈ gdf_columns counties.
Proof.
  unfold validate_shapefile. destruct (fs path) as [gdf|].
  - rewrite check_columns_spec. split.
    + intros H. by exists gdf.
    + intros (g & [= <-] & H). done.
  - split; [done|]. intros (g & Hg & _). done.
Qed.

(** ** The dict of counts *)

(** X2.  The branch of the loop that assigns weight 0 to a region missing
    from [fips_counts] is never taken by [create_weight_mask]: for every row
    of the table that has a region, the dict built from the table holds that
    region with the number of rows referencing it, which is at least 1. *)
Theorem fips_counts_cover_table (df : DataFrame) (r : Row) (f : Z) :
  r ∈ df_rows df →
  row_attrs r "FIPS" = Some f →
  value_counts (fips_of df) !! f = Some (count_of (fips_of df) f) ∧
  (1 ≤ count_of (fips_of df) f)%nat.
Proof.
  intros Hr Hf.
  assert (0 < count_of (fips_of df) f)%nat as Hpos.
  { apply count_of_pos. unfold fips_of. rewrite <- Hf.
    by apply (list_elem_of_fmap_2 (λ r, row_attrs r "FIPS")). }
  split; [|lia]. rewrite value_counts_lookup. rewrite decide_False by lia. done.
Qed.

Lemma fips_counts_cover_table_witness :
  value_counts (fips_of small_table) !! 1%Z = Some (count_of (fips_of small_table) 1) ∧
  (1 ≤ count_of (fips_of small_table) 1)%nat.
Proof.
  apply (fips_counts_cover_table small_table (fips_row 0 0 (Some 1%Z)) 1).
  - left.
  - reflexivity.
Defined.

(** ** Bounds of the weights *)

Lemma unit_fraction_bounds (n : nat) :
  (0 < n)%nat →
  0 < 1 / inject_Z (Z.of_nat n) ∧ 1 / inject_Z (Z.of_nat n) <= 1.
Proof.
  intros Hn. destruct n as [|n]; [lia|].
  unfold Qdiv, Qinv, Qlt, Qle, inject_Z. simpl. lia.
Qed.

(** X3.  Every weight of a mask returned by [create_weight_mask] lies
    between 0 and 1, and it is positive exactly in the cells that hold a
    region. *)
Theorem weights_between_zero_and_one
    (self : CountyMaskGenerator) (df : DataFrame) (ds : Dataset) (i j : nat) (w : Q) :
  grid_with_counties self = Some df →
  create_weight_mask self = inr ds →
  get2 (ds_weights ds) i j = Some w →
  0 <= w ∧ w <= 1 ∧
  (0 < w ↔ ∃ f, get2 (ds_FIPS ds) i j = Some (Some f)).
Proof.
  intros Hself Hds Hw. rewrite (create_weight_mask_table self df Hself) in Hds.
  destruct (weight_mask_of_spec df) as (ds' & Hds' & _ & _ & Hsw & _ & Hcell);
    [by eapply weight_mask_of_column|].
  rewrite Hds in Hds'. injection Hds' as <-.
  destruct (get2_lt _ _ _ _ _ _ Hsw Hw) as [Hi Hj].
  destruct (lookup_lt_is_Some_2 _ _ Hi) as [la Hla].
  destruct (lookup_lt_is_Some_2 _ _ Hj) as [lo Hlo].
  specialize (Hcell i j la lo Hla Hlo).
  destruct (last_assignment (df_rows df) la lo) as [f|] eqn:El.
  - destruct Hcell as [Hcw Hcf]. rewrite Hw in Hcw. injection Hcw as ->.
    destruct (unit_fraction_bounds (count_of (fips_of df) f)) as [Hpos Hle];
      [by eapply last_assignment_counted|].
    split; [by apply Qlt_le_weak|]. split; [done|].
    split; [eauto|done].
  - destruct Hcell as [Hcw Hcf]. rewrite Hw in Hcw. injection Hcw as ->.
    split; [apply Qle_refl|]. split; [vm_compute; discriminate|].
    split.
    + intros H. by apply Qlt_irrefl in H.
    + intros [f Hf]. rewrite Hcf in Hf. discriminate.
Qed.

Lemma weights_between_zero_and_one_witness :
  0 <= 1 # 2 ∧ 1 # 2 <= 1 ∧
  (0 < 1 # 2 ↔ ∃ f, get2 (ds_FIPS small_mask) 1 0 = Some (Some f)).
Proof.
  apply (weights_between_zero_and_one (holding two_squares small_table) small_table
           small_mask 1 0 (1 # 2)).
  - reflexivity.
  - vm_compute. reflexivity.
  - reflexivity.
Defined.

(** ** The spatial join *)

Lemma sjoin_rows (left : DataFrame) (right : GeoDataFrame) :
  df_rows (sjoin left right) = flat_map (joined_rows left right) (df_rows left).
Proof. reflexivity. Qed.

Lemma joined_rows_nonempty (left : DataFrame) (right : GeoDataFrame) (p : Row) :
  (1 ≤ length (joined_rows left right p))%nat.
Proof.
  unfold joined_rows. destruct (containing right (row_lon p) (row_lat p)); simpl; lia.
Qed.

Lemma joined_rows_point (left : DataFrame) (right : GeoDataFrame) (p r : Row) :
  r ∈ joined_rows left right p → row_lon r = row_lon p ∧ row_lat r = row_lat p.
Proof.
  unfold joined_rows. destruct (containing right (row_lon p) (row_lat p)) as [|c cs].
  - intros ->%list_elem_of_singleton. done.
  - change (map ?f ?x) with (f <$> x). intros (c' & -> & _)%list_elem_of_fmap. done.
Qed.

Lemma joined_rows_single (left : DataFrame) (right : GeoDataFrame) (p : Row) :
  (length (containing right (row_lon p) (row_lat p)) ≤ 1)%nat →
  map (λ r, (row_lat r, row_lon r)) (joined_rows left right p) = [(row_lat p, row_lon p)].
Proof.
  unfold joined_rows. destruct (containing right (row_lon p) (row_lat p)) as [|c [|c' cs]];
    simpl; [done|done|lia].
Qed.

Lemma elem_of_containing (gdf : GeoDataFrame) (lon lat : Q) (c : County) :
  c ∈ containing gdf lon lat ↔ c ∈ gdf_rows gdf ∧ county_contains c lon lat = true.
Proof.
  unfold containing. rewrite list_elem_of_filter. rewrite Is_true_true. tauto.
Qed.

Lemma assign_grid_to_county_unfold (self : CountyMaskGenerator) (points : DataFrame) :
  grid_points self = Some points →
  assign_grid_to_county self =
    inr ({| county_identifier := county_identifier self;
            counties := counties self;
            grid_points := Some points;
            grid_with_counties := Some (sjoin points (counties self)) |},
         sjoin points (counties self)).
Proof. intros H. unfold assign_grid_to_county, to_crs. by rewrite H. Qed.

(** X4.  [assign_grid_to_county] keeps every grid point, in order: the
    assignment table has at least as many rows as the grid, its rows lie
    at the grid's points and every grid point has a row; when no grid point
    lies within two counties, the table has exactly the grid's points in the
    grid's order. *)
Theorem assign_grid_to_county_keeps_points (self : CountyMaskGenerator) (points : DataFrame) :
  grid_points self = Some points →
  ∃ self' joined,
    assign_grid_to_county self = inr (self', joined) ∧
    grid_with_counties self' = Some joined ∧
    (length (df_rows points) ≤ length (df_rows joined))%nat ∧
    (∀ c, c ∈ coordinates joined ↔ c ∈ coordinates points) ∧
    ((∀ p, p ∈ df_rows points →
           (length (containing (counties self) (row_lon p) (row_lat p)) ≤ 1)%nat) →
     coordinates joined = coordinates points).
Proof.
  intros Hgp. rewrite (assign_grid_to_county_unfold self points Hgp).
  eexists _, _. split; [reflexivity|]. split; [reflexivity|].
  unfold coordinates. rewrite sjoin_rows.
  generalize (df_rows points) as ps. intros ps.
  split; [|split].
  - induction ps as [|p ps IH]; simpl; [done|].
    rewrite length_app. pose proof (joined_rows_nonempty points (counties self) p). lia.
  - intros c. change (map ?f ?x) with (f <$> x). rewrite !list_elem_of_fmap. split.
    + intros (r & -> & Hr). apply list_elem_of_In, in_flat_map in Hr as (p & Hp & Hr).
      apply list_elem_of_In in Hp, Hr.
      apply joined_rows_point in Hr as [-> ->]. by exists p.
    + intros (p & -> & Hp).
      pose proof (joined_rows_nonempty points (counties self) p) as Hne.
      destruct (joined_rows points (counties self) p) as [|r rs] eqn:Er; [simpl in Hne; lia|].
      assert (r ∈ joined_rows points (counties self) p) as Hr by (rewrite Er; left).
      exists r. split.
      * apply joined_rows_point in Hr as [-> ->]. done.
      * apply list_elem_of_In, in_flat_map. exists p.
        split; by apply list_elem_of_In.
  - intros Hone. induction ps as [|p ps IH]; simpl; [done|].
    rewrite map_app, joined_rows_single by (apply Hone; left). simpl. f_equal.
    apply IH. intros p' Hp'. apply Hone. by right.
Qed.

Lemma assign_grid_to_county_keeps_points_witness :
  ∃ self' joined,
    assign_grid_to_county (with_grid overlapping column_grid) = inr (self', joined) ∧
    grid_with_counties self' = Some joined ∧
    (length (df_rows column_grid) ≤ length (df_rows joined))%nat ∧
    (∀ c, c ∈ coordinates joined ↔ c ∈ coordinates column_grid) ∧
    ((∀ p, p ∈ df_rows column_grid →
           (length (containing overlapping (row_lon p) (row_lat p)) ≤ 1)%nat) →
     coordinates joined = coordinates column_grid).
Proof.
  apply (assign_grid_to_county_keeps_points (with_grid overlapping column_grid)).
  reflexivity.
Defined.

(** X5.  The regions of the assignment table are those of the counties the
    points lie within: an attribute value of a row is the value of a county
    that contains the row's point; every county containing a grid point
    contributes a row with its attributes; and a grid point within no county
    has one row, with missing attributes. *)
Theorem assign_grid_to_county_containment
    (self : CountyMaskGenerator) (points : DataFrame) (name : string) :
  grid_points self = Some points →
  name ∉ df_columns points →
  ∃ self' joined,
    assign_grid_to_county self = inr (self', joined) ∧
    (∀ r v, r ∈ df_rows joined → row_attrs r name = Some v →
       ∃ c, c ∈ gdf_rows (counties self) ∧
            county_contains c (row_lon r) (row_lat r) = true ∧
            county_attrs c name = Some v) ∧
    (∀ p c, p ∈ df_rows points → c ∈ gdf_rows (counties self) →
       county_contains c (row_lon p) (row_lat p) = true →
       ∃ r, r ∈ df_rows joined ∧ row_lon r = row_lon p ∧ row_lat r = row_lat p ∧
            row_attrs r name = county_attrs c name) ∧
    (∀ p, p ∈ df_rows points →
       containing (counties self) (row_lon p) (row_lat p) = [] →
       ∃ r, r ∈ df_rows joined ∧ row_lon r = row_lon p ∧ row_lat r = row_lat p ∧
            row_attrs r name = None).
Proof.
  intros Hgp Hname. rewrite (assign_grid_to_county_unfold self points Hgp).
  eexists _, _. split; [reflexivity|]. rewrite sjoin_rows.
  split; [|split].
  - intros r v Hr Hv. apply list_elem_of_In, in_flat_map in Hr as (p & Hp & Hr).
    apply list_elem_of_In in Hr. unfold joined_rows in Hr.
    destruct (containing (counties self) (row_lon p) (row_lat p)) as [|c cs] eqn:Ec.
    + apply list_elem_of_singleton in Hr as ->. simpl in Hv.
      rewrite bool_decide_false in Hv by done. discriminate.
    + change (map ?f ?x) with (f <$> x) in Hr.
      apply list_elem_of_fmap in Hr as (c' & -> & Hc'). simpl in *.
      rewrite bool_decide_false in Hv by done.
      rewrite <- Ec in Hc'. apply elem_of_containing in Hc' as [Hin Hcont].
      by exists c'.
  - intros p c Hp Hc Hcont.
    assert (c ∈ containing (counties self) (row_lon p) (row_lat p)) as Hin
      by (by apply elem_of_containing).
    eexists (mkRow (row_lon p) (row_lat p) _). split; [|split; [reflexivity|split; [reflexivity|]]].
    + apply list_elem_of_In, in_flat_map. exists p. split; [by apply list_elem_of_In|].
      apply list_elem_of_In. unfold joined_rows.
      destruct (containing (counties self) (row_lon p) (row_lat p)) as [|c0 cs] eqn:Ec;
        [by apply elem_of_nil in Hin|].
      change (map ?f ?x) with (f <$> x). apply list_elem_of_fmap. exists c. done.
    + simpl. by rewrite bool_decide_false.
  - intros p Hp Hnone.
    eexists (mkRow (row_lon p) (row_lat p) _). split; [|split; [reflexivity|split; [reflexivity|]]].
    + apply list_elem_of_In, in_flat_map. exists p. split; [by apply list_elem_of_In|].
      apply list_elem_of_In. unfold joined_rows. rewrite Hnone. left.
    + simpl. by rewrite bool_decide_false.
Qed.

Lemma assign_grid_to_county_containment_witness :
  ∃ self' joined,
    assign_grid_to_county (with_grid two_squares diagonal_grid) = inr (self', joined) ∧
    (∀ r v, r ∈ df_rows joined → row_attrs r "FIPS" = Some v →
       ∃ c, c ∈ gdf_rows two_squares ∧
            county_contains c (row_lon r) (row_lat r) = true ∧
            county_attrs c "FIPS" = Some v) ∧
    (∀ p c, p ∈ df_rows diagonal_grid → c ∈ gdf_rows two_squares →
       county_contains c (row_lon p) (row_lat p) = true →
       ∃ r, r ∈ df_rows joined ∧ row_lon r = row_lon p ∧ row_lat r = row_lat p ∧
            row_attrs r "FIPS" = county_attrs c "FIPS") ∧
    (∀ p, p ∈ df_rows diagonal_grid →
       containing two_squares (row_lon p) (row_lat p) = [] →
       ∃ r, r ∈ df_rows joined ∧ row_lon r = row_lon p ∧ row_lat r = row_lat p ∧
            row_attrs r "FIPS" = None).
Proof.
  apply (assign_grid_to_county_containment (with_grid two_squares diagonal_grid) diagonal_grid "FIPS").
  - reflexivity.
  - apply not_elem_of_nil.
Defined.

(** ** [unique] on concatenations and repetitions *)

Lemma filter_ne_idempotent (x : Q) (l : list Q) :
  filter (λ y, negb (Qeq_bool x y)) (filter (λ y, negb (Qeq_bool x y)) l)
  = filter (λ y, negb (Qeq_bool x y)) l.
Proof.
  induction l as [|y l IH]; [done|].
  rewrite (filter_cons _ y l). destruct (decide (negb (Qeq_bool x y))) as [Hy|Hy].
  - rewrite filter_cons, decide_True by done. by rewrite IH.
  - done.
Qed.

Lemma filter_all_distinct (x : Q) (l : list Q) :
  (∀ y, y ∈ l → ¬ x == y) → filter (λ y, negb (Qeq_bool x y)) l = l.
Proof.
  induction l as [|y l IH]; intros H; [done|].
  rewrite filter_cons, decide_True.
  - rewrite IH; [done|]. intros z Hz. apply H. by right.
  - apply Is_true_true, negb_true_iff, Qeq_bool_false, H. left.
Qed.

Lemma unique_of_distinct (l : list Q) : Qdistinct l → unique l = l.
Proof.
  induction l as [|x l IH]; [done|]. intros [Hx Hl]. simpl.
  rewrite (IH Hl). by rewrite filter_all_distinct.
Qed.

Lemma unique_app (l r : list Q) : unique (l ++ r) = unique l ++ without l (unique r).
Proof.
  induction l as [|x l IH]; simpl; [done|].
  by rewrite IH, filter_app.
Qed.

Lemma elem_of_without (l u : list Q) (y : Q) :
  y ∈ without l u ↔ y ∈ u ∧ ∀ x, x ∈ l → ¬ x == y.
Proof.
  induction l as [|x l IH]; simpl.
  - split; [|tauto]. intros H. split; [done|]. intros x Hx. by apply elem_of_nil in Hx.
  - rewrite list_elem_of_filter, IH, Is_true_true, negb_true_iff, Qeq_bool_false. split.
    + intros (Hxy & Hu & Hl). split; [done|]. intros z [->|Hz]%elem_of_cons; auto.
    + intros (Hu & H). split; [apply H; left|]. split; [done|].
      intros z Hz. apply H. by right.
Qed.

(** Values that already occurred add nothing. *)
Lemma unique_absorb (l r : list Q) :
  (∀ y, y ∈ r → ∃ x, x ∈ l ∧ x == y) → unique (l ++ r) = unique l.
Proof.
  intros H. rewrite unique_app.
  destruct (without l (unique r)) as [|y rest] eqn:E; [by rewrite app_nil_r|].
  exfalso. assert (y ∈ without l (unique r)) as Hy by (rewrite E; left).
  apply elem_of_without in Hy as [Hy Hnone].
  destruct (H y (unique_elem_of _ _ Hy)) as (x & Hx & Hxy). by apply (Hnone x).
Qed.

Lemma unique_repeat (x : Q) (b rest : list Q) :
  (∀ y, y ∈ b → y = x) → unique (x :: b ++ rest) = unique (x :: rest).
Proof.
  induction b as [|y b IH]; intros H; [done|].
  assert (y = x) as -> by (apply H; left).
  change (unique (x :: (x :: b) ++ rest)) with
    (x :: filter (λ y, negb (Qeq_bool x y)) (unique (x :: b ++ rest))).
  rewrite IH by (intros z Hz; apply H; by right). simpl.
  rewrite filter_cons, decide_False.
  - by rewrite filter_ne_idempotent.
  - rewrite Qeq_bool_refl. simpl. tauto.
Qed.

(** Repeating each value in place does not change the distinct values. *)
Lemma unique_blocks {A} (h : A → Q) (g : A → list Q) (l : list A) :
  (∀ a, a ∈ l → g a ≠ [] ∧ ∀ y, y ∈ g a → y = h a) →
  unique (flat_map g l) = unique (map h l).
Proof.
  induction l as [|a l IH]; intros H; [done|]. simpl.
  destruct (H a) as [Hne Hall]; [left|].
  destruct (g a) as [|y b] eqn:Eg; [done|].
  assert (y = h a) as -> by (apply Hall; left).
  rewrite <- app_comm_cons, unique_repeat by (intros z Hz; apply Hall; by right).
  simpl. rewrite IH; [done|]. intros a' Ha'. apply H. by right.
Qed.

Lemma map_flat_map {A B C} (f : B → C) (g : A → list B) (l : list A) :
  map f (flat_map g l) = flat_map (λ a, map f (g a)) l.
Proof.
  induction l as [|a l IH]; simpl; [done|]. by rewrite map_app, IH.
Qed.

(** The spatial join does not change the axes. *)
Lemma sjoin_lat_axis (left : DataFrame) (right : GeoDataFrame) :
  lat_axis (sjoin left right) = lat_axis left.
Proof.
  unfold lat_axis. rewrite sjoin_rows, map_flat_map. apply unique_blocks.
  intros p _. split.
  - pose proof (joined_rows_nonempty left right p) as Hne.
    destruct (joined_rows left right p); [simpl in Hne; lia|done].
  - change (map ?f ?x) with (f <$> x).
    intros y (r & -> & Hr)%list_elem_of_fmap. by apply joined_rows_point in Hr as [_ ->].
Qed.

Lemma sjoin_lon_axis (left : DataFrame) (right : GeoDataFrame) :
  lon_axis (sjoin left right) = lon_axis left.
Proof.
  unfold lon_axis. rewrite sjoin_rows, map_flat_map. apply unique_blocks.
  intros p _. split.
  - pose proof (joined_rows_nonempty left right p) as Hne.
    destruct (joined_rows left right p); [simpl in Hne; lia|done].
  - change (map ?f ?x) with (f <$> x).
    intros y (r & -> & Hr)%list_elem_of_fmap. by apply joined_rows_point in Hr as [-> _].
Qed.

(** The axes of a row-major grid. *)
Lemma row_major_lat_axis (lat lon : list Q) :
  lon ≠ [] → unique (map row_lat (row_major lat lon)) = unique lat.
Proof.
  intros Hlon. unfold row_major. rewrite <- flat_map_concat_map, map_flat_map.
  rewrite (unique_blocks (λ la, la)); [by rewrite map_id|].
  intros la _. split.
  - destruct lon; [done|discriminate].
  - change (map ?f ?x) with (f <$> x).
    intros y (r & -> & (lo & -> & _)%list_elem_of_fmap)%list_elem_of_fmap. done.
Qed.

Lemma row_major_lon_column (lat lon : list Q) (y : Q) :
  y ∈ map row_lon (row_major lat lon) → y ∈ lon.
Proof.
  unfold row_major. rewrite <- flat_map_concat_map.
  change (map ?f ?x) with (f <$> x).
  intros (r & -> & Hr)%list_elem_of_fmap.
  apply list_elem_of_In, in_flat_map in Hr as (la & _ & Hr).
  apply list_elem_of_In in Hr. change (map ?f ?x) with (f <$> x) in Hr.
  apply list_elem_of_fmap in Hr as (lo & -> & Hlo). done.
Qed.

Lemma row_major_lon_axis (lat lon : list Q) :
  lat ≠ [] → unique (map row_lon (row_major lat lon)) = unique lon.
Proof.
  destruct lat as [|la lat]; [done|]. intros _.
  change (row_major (la :: lat) lon)
    with (map (λ lo, mkRow lo la (λ _, None)) lon ++ row_major lat lon).
  rewrite map_app, map_map. simpl. rewrite map_id.
  apply unique_absorb. intros y Hy%row_major_lon_column. exists y. split; [done|reflexivity].
Qed.

(** ** Ascending axes *)

Lemma strictly_ascending_bound (x : Q) (l : list Q) :
  strictly_ascending (x :: l) → ∀ y, y ∈ l → x < y.
Proof.
  revert x. induction l as [|z l IH]; intros x [Hx Hl] y Hy; [by apply elem_of_nil in Hy|].
  apply elem_of_cons in Hy as [->|Hy]; [done|].
  apply Qlt_trans with z; [done|]. by apply IH.
Qed.

Lemma strictly_ascending_distinct (l : list Q) : strictly_ascending l → Qdistinct l.
Proof.
  induction l as [|x l IH]; [done|]. intros H. split.
  - intros y Hy Hxy. pose proof (strictly_ascending_bound x l H y Hy) as Hlt.
    rewrite Hxy in Hlt. by apply Qlt_irrefl in Hlt.
  - apply IH. by destruct H.
Qed.


(** ** The three stages in a row *)

Lemma run_pipeline_unfold (self : CountyMaskGenerator)
    (lat_range lon_range : option (Q * Q)) (lat_steps lon_steps : option Z) (lat lon : list Q) :
  linspace (lat_range_of self lat_range).1 (lat_range_of self lat_range).2
    (steps_of lat_steps) = inr lat →
  linspace (lon_range_of self lon_range).1 (lon_range_of self lon_range).2
    (steps_of lon_steps) = inr lon →
  run_pipeline self lat_range lon_range lat_steps lon_steps =
    weight_mask_of (sjoin {| df_columns := []; df_rows := row_major lat lon |} (counties self)).
Proof.
  intros Hlat Hlon. unfold run_pipeline.
  rewrite generate_grid_points_unfold, Hlat. simpl. rewrite Hlon. reflexivity.
Qed.


(** The axes of the assignment table of a grid are the axes of the grid,
    when these hold no value twice. *)
Lemma grid_table_axes (gdf : GeoDataFrame) (lat lon : list Q) :
  lat ≠ [] → lon ≠ [] → Qdistinct lat → Qdistinct lon →
  let df := sjoin {| df_columns := []; df_rows := row_major lat lon |} gdf in
  lat_axis df = lat ∧ lon_axis df = lon.
Proof.
  intros Hlat Hlon Hdlat Hdlon df. split.
  - unfold df. rewrite sjoin_lat_axis. unfold lat_axis. simpl.
    rewrite row_major_lat_axis by done. by apply unique_of_distinct.
  - unfold df. rewrite sjoin_lon_axis. unfold lon_axis. simpl.
    rewrite row_major_lon_axis by done. by apply unique_of_distinct.
Qed.

(** X6.  When the latitudes and the longitudes that [generate_grid_points]
    generates (at least one of each) are strictly ascending, a mask
    returned by the three stages has the shape of the requested grid: its
    latitude and longitude coordinates are the generated axes, and both
    layers have [lat_steps] rows of [lon_steps] cells. *)
Theorem run_pipeline_shape (self : CountyMaskGenerator)
    (lat_range lon_range : Q * Q) (L W : Z) (lat lon : list Q) (ds : Dataset) :
  (1 ≤ L)%Z → (1 ≤ W)%Z →
  linspace lat_range.1 lat_range.2 L = inr lat →
  linspace lon_range.1 lon_range.2 W = inr lon →
  strictly_ascending lat → strictly_ascending lon →
  run_pipeline self (Some lat_range) (Some lon_range) (Some L) (Some W) = inr ds →
  ds_lat ds = lat ∧ ds_lon ds = lon ∧
  length lat = Z.to_nat L ∧ length lon = Z.to_nat W ∧
  has_shape (ds_FIPS ds) (Z.to_nat L) (Z.to_nat W) ∧
  has_shape (ds_weights ds) (Z.to_nat L) (Z.to_nat W).
Proof.
  intros HL HW Elat Elon Hlat Hlon Hrun.
  destruct (linspace_length lat_range.1 lat_range.2 L) as (lat' & Elat' & Llat); [lia|].
  destruct (linspace_length lon_range.1 lon_range.2 W) as (lon' & Elon' & Llon); [lia|].
  rewrite Elat in Elat'. injection Elat' as <-.
  rewrite Elon in Elon'. injection Elon' as <-.
  rewrite (run_pipeline_unfold self _ _ _ _ lat lon) in Hrun by done.
  destruct (grid_table_axes (counties self) lat lon) as [Hax1 Hax2].
  { intros ->. simpl in Llat. lia. }
  { intros ->. simpl in Llon. lia. }
  { by apply strictly_ascending_distinct. }
  { by apply strictly_ascending_distinct. }
  destruct (weight_mask_of_spec _ (weight_mask_of_column _ _ Hrun))
    as (ds' & Hds' & Hdlat & Hdlon & Hw & Hf & _).
  rewrite Hrun in Hds'. injection Hds' as <-.
  rewrite Hax1 in *. rewrite Hax2 in *. rewrite Llat, Llon in *.
  split; [rewrite Hdlat; by apply sort_ascending|].
  split; [rewrite Hdlon; by apply sort_ascending|].
  done.
Qed.

Lemma run_pipeline_shape_witness :
  ds_lat ascending_mask = [0; 2] ∧ ds_lon ascending_mask = [0; 2] ∧
  length [0; 2] = Z.to_nat 2 ∧ length [0; 2] = Z.to_nat 2 ∧
  has_shape (ds_FIPS ascending_mask) (Z.to_nat 2) (Z.to_nat 2) ∧
  has_shape (ds_weights ascending_mask) (Z.to_nat 2) (Z.to_nat 2).
Proof.
  apply (run_pipeline_shape (fresh "FIPS" two_squares) (0, 2) (0, 2) 2 2 [0; 2] [0; 2]
           ascending_mask).
  - lia.
  - lia.
  - reflexivity.
  - reflexivity.
  - vm_compute. repeat split; reflexivity.
  - vm_compute. repeat split; reflexivity.
  - vm_compute. reflexivity.
Defined.

(** ** Tables with one row per point *)

Lemma coords_distinct_app (a b : list (Q * Q)) :
  coords_distinct a → coords_distinct b →
  (∀ c c', c ∈ a → c' ∈ b → ¬ (c.1 == c'.1 ∧ c.2 == c'.2)) →
  coords_distinct (a ++ b).
Proof.
  induction a as [|c a IH]; intros Ha Hb Hab; [done|].
  destruct Ha as [Hc Ha]. simpl. split.
  - intros c' [Hc'|Hc']%elem_of_app; [by apply Hc|]. apply Hab; [left|done].
  - apply IH; [done|done|]. intros x y Hx Hy. apply Hab; [by right|done].
Qed.

Lemma row_major_coordinates (lat lon : list Q) :
  map (λ r, (row_lat r, row_lon r)) (row_major lat lon)
  = flat_map (λ la, map (λ lo, (la, lo)) lon) lat.
Proof.
  unfold row_major. rewrite <- flat_map_concat_map, map_flat_map.
  induction lat as [|la lat IH]; simpl; [done|]. by rewrite IH, map_map.
Qed.

Lemma row_major_coords_distinct (lat lon : list Q) :
  Qdistinct lat → Qdistinct lon →
  coords_distinct (map (λ r, (row_lat r, row_lon r)) (row_major lat lon)).
Proof.
  intros Hlat Hlon. rewrite row_major_coordinates.
  induction lat as [|la lat IH]; [done|]. destruct Hlat as [Hla Hlat]. simpl.
  apply coords_distinct_app.
  - clear -Hlon. induction lon as [|lo lon IH]; [done|]. destruct Hlon as [Hlo Hlon].
    simpl. split; [|by apply IH].
    change (map ?f ?x) with (f <$> x).
    intros c' (lo' & -> & Hlo')%list_elem_of_fmap [_ H]. simpl in H. by apply (Hlo lo').
  - by apply IH.
  - change (map ?f ?x) with (f <$> x).
    intros c c' (lo & -> & _)%list_elem_of_fmap Hc' [H _]. simpl in H.
    apply list_elem_of_In, in_flat_map in Hc' as (la' & Hla' & Hc').
    apply list_elem_of_In in Hla', Hc'. change (map ?f ?x) with (f <$> x) in Hc'.
    apply list_elem_of_fmap in Hc' as (lo' & -> & _). simpl in H. by apply (Hla la').
Qed.

Lemma coords_distinct_assigned (rows : list Row) :
  coords_distinct (map (λ r, (row_lat r, row_lon r)) rows) →
  distinct_assigned_points rows = true.
Proof.
  induction rows as [|r rows IH]; [done|]. intros [Hr Hrows]. simpl.
  apply andb_true_iff. split; [|by apply IH].
  case_bool_decide; [|done]. apply forallb_forall. intros r' Hr'%list_elem_of_In.
  apply negb_true_iff. unfold assigned_at. apply andb_false_iff. right.
  unfold at_point. destruct (Qeq_bool (row_lat r') (row_lat r)) eqn:E1; [|done].
  destruct (Qeq_bool (row_lon r') (row_lon r)) eqn:E2; [|done]. exfalso.
  apply Qeq_bool_iff in E1, E2.
  apply (Hr (row_lat r', row_lon r')).
  - by apply (list_elem_of_fmap_2 (λ r, (row_lat r, row_lon r))).
  - simpl. split; by symmetry.
Qed.

(** With one row per point, the assignment of a point is the region of its
    row. *)
Lemma last_assignment_of_row (rows : list Row) (k : nat) (r : Row) :
  coords_distinct (map (λ r, (row_lat r, row_lon r)) rows) →
  rows !! k = Some r →
  last_assignment rows (row_lat r) (row_lon r) = row_attrs r "FIPS".
Proof.
  revert k. induction rows as [|r0 rows IH]; intros k Hd Hk; [done|].
  destruct Hd as [Hr0 Hrows]. simpl. destruct k as [|k]; simpl in Hk.
  - injection Hk as ->.
    destruct (last_assignment rows (row_lat r) (row_lon r)) as [f|] eqn:El.
    + exfalso. apply last_assignment_elem_of in El as (r' & Hr' & _ & Hat).
      unfold at_point in Hat. apply andb_true_iff in Hat as [H1 H2].
      apply Qeq_bool_iff in H1, H2. apply (Hr0 (row_lat r', row_lon r')).
      * by apply (list_elem_of_fmap_2 (λ r, (row_lat r, row_lon r))).
      * simpl. split; by symmetry.
    + unfold at_point. by rewrite !Qeq_bool_refl.
  - rewrite (IH k Hrows Hk). destruct (row_attrs r "FIPS") as [f|]; [done|].
    destruct (at_point (row_lat r) (row_lon r) r0) eqn:Hat; [|done]. exfalso.
    unfold at_point in Hat. apply andb_true_iff in Hat as [H1 H2].
    apply Qeq_bool_iff in H1, H2. apply (Hr0 (row_lat r, row_lon r)).
    + apply (list_elem_of_fmap_2 (λ r, (row_lat r, row_lon r))).
      by eapply list_elem_of_lookup_2.
    + done.
Qed.

Lemma row_major_elem_of (lat lon : list Q) (p : Row) :
  p ∈ row_major lat lon → row_lat p ∈ lat ∧ row_lon p ∈ lon.
Proof.
  unfold row_major. rewrite <- flat_map_concat_map.
  intros (la & Hla & Hp)%list_elem_of_In%in_flat_map.
  apply list_elem_of_In in Hla, Hp. change (map ?f ?x) with (f <$> x) in Hp.
  apply list_elem_of_fmap in Hp as (lo & -> & Hlo). done.
Qed.

Lemma joined_rows_single_county (left : DataFrame) (gdf : GeoDataFrame) (ps : list Row) :
  df_columns left = [] →
  (∀ p, p ∈ ps → (length (containing gdf (row_lon p) (row_lat p)) ≤ 1)%nat) →
  map (λ r, (row_lat r, row_lon r)) (flat_map (joined_rows left gdf) ps)
    = map (λ r, (row_lat r, row_lon r)) ps ∧
  map (λ r, row_attrs r "FIPS") (flat_map (joined_rows left gdf) ps)
    = map (λ p, region_at gdf (row_lon p) (row_lat p)) ps.
Proof.
  intros Hcols. induction ps as [|p ps IH]; intros Hps; [done|].
  destruct IH as [IH1 IH2]; [intros p' Hp'; apply Hps; by right|].
  simpl. rewrite !map_app, IH1, IH2.
  specialize (Hps p (list_elem_of_here _ _)).
  unfold joined_rows, region_at. rewrite Hcols.
  destruct (containing gdf (row_lon p) (row_lat p)) as [|c [|c' cs]]; simpl in *; [done|done|lia].
Qed.

(** When no grid point lies within two counties, the assignment table has
    one row per grid point, in grid order, with the region of the county the
    point lies within. *)
Lemma sjoin_single_county (gdf : GeoDataFrame) (lat lon : list Q) :
  single_county gdf lat lon →
  let df := sjoin {| df_columns := []; df_rows := row_major lat lon |} gdf in
  coordinates df = map (λ r, (row_lat r, row_lon r)) (row_major lat lon) ∧
  fips_of df = map (λ p, region_at gdf (row_lon p) (row_lat p)) (row_major lat lon).
Proof.
  intros Hone df. unfold coordinates, fips_of, df. rewrite sjoin_rows.
  apply joined_rows_single_county; [done|].
  intros p [Hla Hlo]%row_major_elem_of. by apply Hone.
Qed.

(** ** The mask of a grid whose points lie within at most one county *)

(** X7.  When the generated latitudes and longitudes are strictly
    ascending and no grid point lies within two counties, cell [(i, j)] of
    a mask returned by the three stages describes the grid point of the
    [i]-th latitude and [j]-th longitude: its region is that of the county
    the point lies within, with weight one over the number of grid points
    within that region, or the missing value with weight 0 when the point
    lies within no county. *)
Theorem run_pipeline_cell (self : CountyMaskGenerator)
    (lat_range lon_range : Q * Q) (L W : Z) (lat lon : list Q) (ds : Dataset)
    (i j : nat) (la lo : Q) :
  linspace lat_range.1 lat_range.2 L = inr lat →
  linspace lon_range.1 lon_range.2 W = inr lon →
  strictly_ascending lat → strictly_ascending lon →
  single_county (counties self) lat lon →
  run_pipeline self (Some lat_range) (Some lon_range) (Some L) (Some W) = inr ds →
  lat !! i = Some la → lon !! j = Some lo →
  ds_lat ds !! i = Some la ∧ ds_lon ds !! j = Some lo ∧
  get2 (ds_FIPS ds) i j = Some (region_at (counties self) lo la) ∧
  get2 (ds_weights ds) i j =
    Some (match region_at (counties self) lo la with
          | Some f => 1 / inject_Z (Z.of_nat (points_in_region (counties self) lat lon f))
          | None => 0
          end).
Proof.
  intros Elat Elon Hasc1 Hasc2 Hone Hrun Hla Hlo.
  rewrite (run_pipeline_unfold self _ _ _ _ lat lon) in Hrun by done.
  destruct (grid_table_axes (counties self) lat lon) as [Hax1 Hax2].
  { intros ->. done. }
  { intros ->. done. }
  { by apply strictly_ascending_distinct. }
  { by apply strictly_ascending_distinct. }
  set (df := sjoin _ _) in *.
  destruct (weight_mask_of_spec df (weight_mask_of_column _ _ Hrun))
    as (ds' & Hds' & Hdlat & Hdlon & _ & _ & Hcell).
  rewrite Hrun in Hds'. injection Hds' as <-.
  rewrite Hax1 in *. rewrite Hax2 in *.
  rewrite Hdlat, Hdlon, !sort_ascending by done.
  split; [done|]. split; [done|].
  specialize (Hcell i j la lo Hla Hlo).
  destruct (sjoin_single_county (counties self) lat lon Hone) as [Hcoords Hfips].
  fold df in Hcoords, Hfips.
  (* the row of the table at the grid point *)
  pose proof (row_major_lookup lat lon i j la lo Hla Hlo) as Hp.
  assert (∃ r, df_rows df !! (i * length lon + j)%nat = Some r ∧
               row_lat r = la ∧ row_lon r = lo ∧
               row_attrs r "FIPS" = region_at (counties self) lo la) as (r & Hr & <- & <- & Hrf).
  { assert (coordinates df !! (i * length lon + j)%nat = Some (la, lo)) as Hc.
    { rewrite Hcoords. change (map ?f ?x) with (f <$> x).
      by rewrite list_lookup_fmap, Hp. }
    assert (fips_of df !! (i * length lon + j)%nat = Some (region_at (counties self) lo la)) as Hf.
    { rewrite Hfips. change (map ?f ?x) with (f <$> x).
      by rewrite list_lookup_fmap, Hp. }
    unfold coordinates, fips_of in Hc, Hf.
    change (map ?f ?x) with (f <$> x) in Hc. change (map ?f ?x) with (f <$> x) in Hf.
    apply list_lookup_fmap_Some in Hc as (r & [= -> ->] & Hr).
    apply list_lookup_fmap_Some in Hf as (r' & Hf & Hr').
    rewrite Hr in Hr'. injection Hr' as <-. by exists r. }
  assert (coords_distinct (coordinates df)) as Hdist.
  { rewrite Hcoords. apply row_major_coords_distinct; by apply strictly_ascending_distinct. }
  rewrite (last_assignment_of_row (df_rows df) _ r Hdist Hr), Hrf in Hcell.
  destruct (region_at (counties self) (row_lon r) (row_lat r)) as [f|].
  - destruct Hcell as [Hw Hf]. split; [done|]. rewrite Hw. unfold points_in_region.
    by rewrite Hfips.
  - tauto.
Qed.

Lemma two_squares_single_county : single_county two_squares [0; 2] [0; 2].
Proof.
  intros la lo Hla Hlo.
  apply elem_of_cons in Hla as [->|Hla]; [|apply list_elem_of_singleton in Hla as ->];
    (apply elem_of_cons in Hlo as [->|Hlo]; [|apply list_elem_of_singleton in Hlo as ->]);
    vm_compute; lia.
Defined.

Lemma run_pipeline_cell_witness :
  ds_lat ascending_mask !! 0%nat = Some 0 ∧ ds_lon ascending_mask !! 1%nat = Some 2 ∧
  get2 (ds_FIPS ascending_mask) 0 1
    = Some (region_at (counties (fresh "FIPS" two_squares)) 2 0) ∧
  get2 (ds_weights ascending_mask) 0 1 =
    Some (match region_at (counties (fresh "FIPS" two_squares)) 2 0 with
          | Some f => 1 / inject_Z (Z.of_nat
                        (points_in_region (counties (fresh "FIPS" two_squares)) [0; 2] [0; 2] f))
          | None => 0
          end).
Proof.
  apply (run_pipeline_cell (fresh "FIPS" two_squares) (0, 2) (0, 2) 2 2 [0; 2] [0; 2]
           ascending_mask 0 1 0 2).
  - reflexivity.
  - reflexivity.
  - vm_compute. repeat split; reflexivity.
  - vm_compute. repeat split; reflexivity.
  - apply two_squares_single_county.
  - vm_compute. reflexivity.
  - reflexivity.
  - reflexivity.
Defined.

(** X8.  When the generated latitudes hold no value twice, nor the
    generated longitudes, and no grid point lies within two counties, the
    weights of every region present in a mask returned by the three stages
    sum to 1. *)
Theorem run_pipeline_region_sum (self : CountyMaskGenerator)
    (lat_range lon_range : Q * Q) (L W : Z) (lat lon : list Q)
    (ds : Dataset) (R : Z) :
  linspace lat_range.1 lat_range.2 L = inr lat →
  linspace lon_range.1 lon_range.2 W = inr lon →
  Qdistinct lat → Qdistinct lon →
  single_county (counties self) lat lon →
  run_pipeline self (Some lat_range) (Some lon_range) (Some L) (Some W) = inr ds →
  region_present R ds →
  region_sum R ds == 1.
Proof.
  intros Elat Elon Hlat Hlon Hone Hrun HR.
  rewrite (run_pipeline_unfold self _ _ _ _ lat lon) in Hrun by done.
  apply (weight_mask_of_region_sum _ ds R) in Hrun; [done| |done].
  apply coords_distinct_assigned.
  destruct (sjoin_single_county (counties self) lat lon Hone) as [Hcoords _].
  unfold coordinates in Hcoords. rewrite Hcoords.
  by apply row_major_coords_distinct.
Qed.

Lemma run_pipeline_region_sum_witness : region_sum 1 ascending_mask == 1.
Proof.
  apply (run_pipeline_region_sum (fresh "FIPS" two_squares) (0, 2) (0, 2) 2 2 [0; 2] [0; 2]).
  - reflexivity.
  - reflexivity.
  - vm_compute. repeat split; intros y Hy H; vm_compute in H;
      repeat (apply elem_of_cons in Hy as [->|Hy]; [discriminate|]);
      by apply elem_of_nil in Hy.
  - vm_compute. repeat split; intros y Hy H; vm_compute in H;
      repeat (apply elem_of_cons in Hy as [->|Hy]; [discriminate|]);
      by apply elem_of_nil in Hy.
  - apply two_squares_single_county.
  - vm_compute. reflexivity.
  - exists 0%nat, 0%nat. reflexivity.
Defined.

(** ** A step count of zero *)




(** ** Defaults of [generate_grid_points] *)

(** X11.  Called without arguments, [generate_grid_points] lays a grid of
    100 by 100 points over the bounding box of the shapefile: 10000 points,
    the first at the minimal latitude and longitude of the bounds and the
    last at the maximal ones. *)
Theorem generate_grid_points_defaults (self : CountyMaskGenerator) :
  ∃ self' points first last,
    generate_grid_points self None None None None = inr (self', points) ∧
    length (df_rows points) = (100 * 100)%nat ∧
    df_rows points !! 0%nat = Some first ∧
    row_lon first == (total_bounds (counties self)).1.1.1 ∧
    row_lat first == (total_bounds (counties self)).1.1.2 ∧
    df_rows points !! (99 * 100 + 99)%nat = Some last ∧
    row_lon last = (total_bounds (counties self)).1.2 ∧
    row_lat last = (total_bounds (counties self)).2.
Proof.
  rewrite generate_grid_points_unfold. unfold lat_range_of, lon_range_of, steps_of.
  destruct (total_bounds (counties self)) as [[[min_lon min_lat] max_lon] max_lat].
  cbv beta iota delta [default fst snd].
  destruct (linspace_length min_lat max_lat 100) as (lat & Elat & Llat); [lia|].
  destruct (linspace_length min_lon max_lon 100) as (lon & Elon & Llon); [lia|].
  rewrite Elat. cbn [mbind result_bind]. rewrite Elon. cbn [mbind result_bind].
  pose proof (linspace_lookup min_lat max_lat 100 lat 0 ltac:(lia) Elat ltac:(lia)) as Hlat0.
  pose proof (linspace_lookup min_lon max_lon 100 lon 0 ltac:(lia) Elon ltac:(lia)) as Hlon0.
  pose proof (linspace_lookup min_lat max_lat 100 lat 99 ltac:(lia) Elat ltac:(lia)) as Hlat99.
  pose proof (linspace_lookup min_lon max_lon 100 lon 99 ltac:(lia) Elon ltac:(lia)) as Hlon99.
  rewrite decide_False in Hlat0, Hlon0 by (simpl; lia).
  rewrite decide_True in Hlat99, Hlon99 by (simpl; lia).
  eexists _, _, _, _. split; [reflexivity|]. cbn [df_rows].
  split; [rewrite row_major_length, Llat, Llon; reflexivity|].
  split; [apply (row_major_lookup lat lon 0 0 _ _ Hlat0 Hlon0)|].
  cbn [row_lon row_lat]. split; [simpl; ring|]. split; [simpl; ring|].
  split.
  { replace (99 * 100 + 99)%nat with (99 * length lon + 99)%nat by (rewrite Llon; reflexivity).
    apply (row_major_lookup lat lon 99 99 _ _ Hlat99 Hlon99). }
  done.
Qed.

(** ** Attributes that go stale *)

(** X12.  [generate_grid_points] replaces the grid but leaves the stored
    assignment table as it was: until [assign_grid_to_county] is called
    again, [create_weight_mask] returns what it returned before the new
    grid was generated. *)
Theorem generate_grid_points_keeps_table (self self' : CountyMaskGenerator)
    (lat_range lon_range : option (Q * Q)) (lat_steps lon_steps : option Z) (points : DataFrame) :
  generate_grid_points self lat_range lon_range lat_steps lon_steps = inr (self', points) →
  grid_points self' = Some points ∧
  grid_with_counties self' = grid_with_counties self ∧
  create_weight_mask self' = create_weight_mask self.
Proof.
  intros H. apply generate_grid_points_attributes in H as [Hgp Hgwc].
  split; [done|]. split; [done|]. unfold create_weight_mask. by rewrite Hgwc.
Qed.

Lemma generate_grid_points_keeps_table_witness :
  grid_points (holding two_squares small_table) = None ∧
  ∃ self' points,
    generate_grid_points (holding two_squares small_table) None None (Some 1%Z) (Some 1%Z)
      = inr (self', points) ∧
    grid_points self' = Some points ∧
    grid_with_counties self' = grid_with_counties (holding two_squares small_table) ∧
    create_weight_mask self' = create_weight_mask (holding two_squares small_table).
Proof.
  split; [reflexivity|]. eexists _, _. split; [reflexivity|].
  apply (generate_grid_points_keeps_table (holding two_squares small_table) _
           None None (Some 1%Z) (Some 1%Z)).
  reflexivity.
Defined.

(** ** The regions of the mask *)

Lemma last_assignment_of_assigned (rows : list Row) (r : Row) (f : Z) :
  distinct_assigned_points rows = true →
  r ∈ rows → row_attrs r "FIPS" = Some f →
  last_assignment rows (row_lat r) (row_lon r) = Some f.
Proof.
  induction rows as [|r0 rows IH]; intros Hd Hr Hf; [by apply elem_of_nil in Hr|].
  simpl in Hd. apply andb_true_iff in Hd as [Hr0 Hd]. simpl.
  apply elem_of_cons in Hr as [->|Hr].
  - rewrite bool_decide_true in Hr0 by (by eexists).
    destruct (last_assignment rows (row_lat r0) (row_lon r0)) as [f'|] eqn:El.
    + exfalso. apply last_assignment_elem_of in El as (r' & Hr' & Hf' & Hat).
      rewrite forallb_forall in Hr0. apply list_elem_of_In in Hr'.
      specialize (Hr0 r' Hr'). apply negb_true_iff in Hr0.
      unfold assigned_at in Hr0. rewrite bool_decide_true in Hr0 by (by eexists).
      simpl in Hr0. congruence.
    + unfold at_point. by rewrite !Qeq_bool_refl.
  - by rewrite (IH Hd Hr Hf).
Qed.

(** X13.  The mask holds no region the table does not reference; and when
    no two assigned rows of the table lie at the same point, every region
    the table references is present in the mask. *)
Theorem mask_regions_are_table_regions
    (self : CountyMaskGenerator) (df : DataFrame) (ds : Dataset) (R : Z) :
  grid_with_counties self = Some df →
  create_weight_mask self = inr ds →
  (region_present R ds → Some R ∈ fips_of df) ∧
  (distinct_assigned_points (df_rows df) = true → Some R ∈ fips_of df → region_present R ds).
Proof.
  intros Hself Hds. rewrite (create_weight_mask_table self df Hself) in Hds.
  destruct (weight_mask_of_spec df) as (ds' & Hds' & _ & _ & _ & Hsf & Hcell);
    [by eapply weight_mask_of_column|].
  rewrite Hds in Hds'. injection Hds' as <-. split.
  - intros (i & j & Hij).
    destruct (get2_lt _ _ _ _ _ _ Hsf Hij) as [Hi Hj].
    destruct (lookup_lt_is_Some_2 _ _ Hi) as [la Hla].
    destruct (lookup_lt_is_Some_2 _ _ Hj) as [lo Hlo].
    specialize (Hcell i j la lo Hla Hlo).
    destruct (last_assignment (df_rows df) la lo) as [f|] eqn:El.
    + destruct Hcell as [_ Hc]. rewrite Hij in Hc. injection Hc as ->.
      by apply count_of_pos, (last_assignment_counted df la lo).
    + destruct Hcell as [_ Hc]. rewrite Hij in Hc. discriminate.
  - intros Hd HR. unfold fips_of in HR. change (map ?f ?x) with (f <$> x) in HR.
    apply list_elem_of_fmap in HR as (r & Hf & Hr). symmetry in Hf.
    destruct (row_position df r Hr) as (i & j & la & lo & Hla & Hlo & Ela & Elo).
    exists i, j. specialize (Hcell i j la lo Hla Hlo).
    rewrite (last_assignment_proper _ la lo (row_lat r) (row_lon r)) in Hcell by done.
    rewrite (last_assignment_of_assigned _ r R Hd Hr Hf) in Hcell. tauto.
Qed.

Lemma mask_regions_are_table_regions_witness :
  (region_present 2 small_mask → Some 2%Z ∈ fips_of small_table) ∧
  (distinct_assigned_points (df_rows small_table) = true →
   Some 2%Z ∈ fips_of small_table → region_present 2 small_mask).
Proof.
  apply (mask_regions_are_table_regions (holding two_squares small_table) small_table
           small_mask 2).
  - reflexivity.
  - vm_compute. reflexivity.
Defined.

(** ** A range of a single value *)





(** ** Tables whose axes appear in ascending order *)

(** X15.  When the latitudes and the longitudes of the assignment table
    both first appear in ascending order, the coordinates of the dataset
    are the axes the loop indexes by: for every row of the table, the cell
    at the position of the row's latitude and longitude on the dataset's
    coordinates holds the region last assigned at the row's point. *)
Theorem ascending_table_co_indexed (self : CountyMaskGenerator) (df : DataFrame) (r : Row) :
  grid_with_counties self = Some df →
  "FIPS" ∈ df_columns df →
  strictly_ascending (lat_axis df) → strictly_ascending (lon_axis df) →
  r ∈ df_rows df →
  ∃ ds i j,
    create_weight_mask self = inr ds ∧
    ds_lat ds = lat_axis df ∧ ds_lon ds = lon_axis df ∧
    first_index (ds_lat ds) (row_lat r) = inr i ∧
    first_index (ds_lon ds) (row_lon r) = inr j ∧
    get2 (ds_FIPS ds) i j = Some (last_assignment (df_rows df) (row_lat r) (row_lon r)).
Proof.
  intros Hself Hcol Hlat Hlon Hr. rewrite (create_weight_mask_table self df Hself).
  destruct (weight_mask_of_co_indexed df r Hcol Hlat Hlon Hr)
    as (ds & i & j & Hds & Hi & Hj & Hcell).
  destruct (weight_mask_of_spec df Hcol) as (ds' & Hds' & Elat & Elon & _).
  rewrite Hds in Hds'. injection Hds' as <-.
  rewrite (sort_ascending _ Hlat) in Elat. rewrite (sort_ascending _ Hlon) in Elon.
  by exists ds, i, j.
Qed.

Lemma ascending_table_co_indexed_witness :
  ∃ ds i j,
    create_weight_mask (holding two_squares small_table) = inr ds ∧
    ds_lat ds = lat_axis small_table ∧ ds_lon ds = lon_axis small_table ∧
    first_index (ds_lat ds) (row_lat (fips_row 1 0 (Some 1%Z))) = inr i ∧
    first_index (ds_lon ds) (row_lon (fips_row 1 0 (Some 1%Z))) = inr j ∧
    get2 (ds_FIPS ds) i j
      = Some (last_assignment (df_rows small_table) (row_lat (fips_row 1 0 (Some 1%Z)))
                (row_lon (fips_row 1 0 (Some 1%Z)))).
Proof.
  apply (ascending_table_co_indexed (holding two_squares small_table) small_table
           (fips_row 1 0 (Some 1%Z))).
  - reflexivity.
  - left.
  - vm_compute. repeat split; reflexivity.
  - vm_compute. repeat split; reflexivity.
  - right. right. left.
Defined.

(** ** Tables with one assigned row per point *)

(** X16.  For every assignment table in which no two rows that are
    assigned to a region lie at the same grid point, and for every region
    [R] present in the region layer of a mask [create_weight_mask]
    returns, the weights of the cells whose region is [R] sum to 1 in exact
    arithmetic. *)
Theorem region_weights_sum_to_one
    (self : CountyMaskGenerator) (df : DataFrame) (ds : Dataset) (R : Z) :
  grid_with_counties self = Some df →
  distinct_assigned_points (df_rows df) = true →
  create_weight_mask self = inr ds →
  region_present R ds →
  region_sum R ds == 1 ∧ Qabs (region_sum R ds - 1) <= 1 # 1000000000.
Proof.
  intros Hself Hd Hds HR. rewrite (create_weight_mask_table self df Hself) in Hds.
  pose proof (weight_mask_of_region_sum df ds R Hd Hds HR) as Hsum.
  split; [done|]. rewrite Hsum. vm_compute. discriminate.
Qed.

Lemma region_weights_sum_to_one_witness :
  region_sum 1 small_mask == 1 ∧ Qabs (region_sum 1 small_mask - 1) <= 1 # 1000000000.
Proof.
  apply (region_weights_sum_to_one (holding two_squares small_table) small_table small_mask 1).
  - reflexivity.
  - vm_compute. reflexivity.
  - vm_compute. reflexivity.
  - exists 0%nat, 0%nat. reflexivity.
Defined.

(** ** The cells, as the loop indexes them *)

(** X17.  For every assignment table with a [FIPS] column, [create_weight_mask]
    returns a mask whose layers are indexed by the latitudes and longitudes
    in the order in which they first appear in the table: the cell of a
    point whose last assigned row has region [f] holds [f] and the weight
    1/count, where count is the number of rows of the whole table that
    reference [f], and the cell of a point without assigned row holds the
    missing value and weight 0. *)
Theorem create_weight_mask_cell
    (self : CountyMaskGenerator) (df : DataFrame) (i j : nat) (la lo : Q) :
  grid_with_counties self = Some df →
  "FIPS" ∈ df_columns df →
  lat_axis df !! i = Some la →
  lon_axis df !! j = Some lo →
  ∃ ds, create_weight_mask self = inr ds ∧
    match last_assignment (df_rows df) la lo with
    | Some f =>
        get2 (ds_FIPS ds) i j = Some (Some f) ∧
        get2 (ds_weights ds) i j = Some (1 / inject_Z (Z.of_nat (count_of (fips_of df) f))) ∧
        (0 < count_of (fips_of df) f)%nat
    | None =>
        get2 (ds_FIPS ds) i j = Some None ∧
        get2 (ds_weights ds) i j = Some 0
    end.
Proof.
  intros Hself Hcol Hla Hlo. rewrite (create_weight_mask_table self df Hself).
  destruct (weight_mask_of_spec df Hcol) as (ds & Hds & _ & _ & _ & _ & Hcell).
  exists ds. split; [done|]. specialize (Hcell i j la lo Hla Hlo).
  destruct (last_assignment (df_rows df) la lo) as [f|] eqn:El.
  - destruct Hcell as [Hw Hf]. split; [done|]. split; [done|].
    by eapply last_assignment_counted.
  - tauto.
Qed.

Lemma create_weight_mask_cell_witness :
  ∃ ds, create_weight_mask (holding two_squares small_table) = inr ds ∧
    get2 (ds_FIPS ds) 1 0 = Some (Some 1%Z) ∧
    get2 (ds_weights ds) 1 0 = Some (1 / inject_Z (Z.of_nat (count_of (fips_of small_table) 1))) ∧
    (0 < count_of (fips_of small_table) 1)%nat.
Proof.
  apply (create_weight_mask_cell (holding two_squares small_table) small_table 1 0 1 0).
  - reflexivity.
  - left.
  - reflexivity.
  - reflexivity.
Defined.
